(** * enterprise/signals/prior.py : prior probability densities

    A shallow embedding of [enterprise.signals.prior] together with the
    part of its numerical environment that decides what the module
    returns: IEEE-754 binary64 arithmetic, Python's [float()] conversion,
    numpy's [astype(..., casting='same_kind')] and the [pdf]/[logpdf]
    template methods of [scipy.stats.rv_continuous].

    Part I holds the definitions: binary64 numbers, exceptions, numpy and
    Python values, the scipy distribution template, the module itself
    ([Prior], [UniformUnnormedRV_generator], [UniformUnnormedRV],
    [UniformBoundedRV]) and the vocabulary of the statements.  Part II
    holds the facts. *)

From Stdlib Require Import String ZArith List Bool Lia.
From Stdlib Require Import Floats.SpecFloat.
Import ListNotations.

Local Open Scope Z_scope.

(* ===================================================================== *)
(** * Part I: definitions                                                 *)
(* ===================================================================== *)

(** ** Binary64 numbers *)

(** numpy's [float64] and Python's [float] are IEEE-754 binary64.  The
    operations are the standard library's executable specification of
    IEEE arithmetic at precision 53 and maximal exponent 1024. *)
Module F64.

Definition prec : Z := 53.
Definition emax : Z := 1024.

Definition float64 : Type := spec_float.

(** The representation invariant of a binary64 number. *)
Definition valid (x : float64) : bool := valid_binary prec emax x.

Definition sub (x y : float64) : float64 := SFsub prec emax x y.
Definition mul (x y : float64) : float64 := SFmul prec emax x y.
Definition div (x y : float64) : float64 := SFdiv prec emax x y.

Definition eqb (x y : float64) : bool := SFeqb x y.
Definition ltb (x y : float64) : bool := SFltb x y.
Definition leb (x y : float64) : bool := SFleb x y.

Definition isnan (x : float64) : bool :=
  match x with S754_nan => true | _ => false end.

Definition zero : float64 := S754_zero false.
Definition one : float64 := S754_finite false 0x10000000000000 (-52).
Definition inf : float64 := S754_infinity false.
Definition ninf : float64 := S754_infinity true.
Definition nan : float64 := S754_nan.

(** Round-to-nearest-even conversion of an integer; an integer beyond
    the binary64 range becomes an infinity. *)
Definition of_Z (n : Z) : float64 := binary_normalize prec emax n 0 false.

Definition of_bool (b : bool) : float64 := if b then one else zero.

Definition is_finite (x : float64) : bool :=
  match x with
  | S754_zero _ | S754_finite _ _ _ => true
  | _ => false
  end.

End F64.

Import F64.

Declare Scope f64_scope.
Delimit Scope f64_scope with f64.
Infix "-" := F64.sub : f64_scope.
Infix "*" := F64.mul : f64_scope.
Infix "/" := F64.div : f64_scope.
Infix "==" := F64.eqb (at level 70, no associativity) : f64_scope.
Infix "<?" := F64.ltb : f64_scope.
Infix "<=?" := F64.leb : f64_scope.

(** Binary64 literals used in the scenarios. *)
Module Lit.
Definition half : float64 := S754_finite false 0x10000000000000 (-53).
Definition one_and_half : float64 := S754_finite false 0x18000000000000 (-52).
Definition five : float64 := S754_finite false 0x14000000000000 (-50).
Definition minus_one : float64 := S754_finite true 0x10000000000000 (-52).
(** 0.2, 0.8 and 1.2 are [0x1.999999999999ap-3], [0x1.999999999999ap-1]
    and [0x1.3333333333333p+0]. *)
Definition d0_2 : float64 := S754_finite false 0x1999999999999a (-55).
Definition d0_8 : float64 := S754_finite false 0x1999999999999a (-53).
Definition d1_2 : float64 := S754_finite false 0x13333333333333 (-52).
(** The successor of 1.0, [1 + 2^-52]. *)
Definition one_plus_ulp : float64 := S754_finite false 0x10000000000001 (-52).
End Lit.

(** A model of the platform logarithm: exact where the C standard fixes
    the result (log(1) = +0, log(+inf) = +inf, log(0) = -inf, NaN below
    zero) and the logarithm of the enclosing power of two elsewhere.  It
    shows that what the theorems ask of [log] can be met. *)
Definition ln2 : float64 := S754_finite false 0x162e42fefa39ef (-53).

Definition log_binade (x : float64) : float64 :=
  match x with
  | S754_nan => nan
  | S754_zero _ => ninf
  | S754_infinity false => inf
  | S754_infinity true => nan
  | S754_finite true _ _ => nan
  | S754_finite false m e => (of_Z (Zpos (digits2_pos m) + e - 1) * ln2)%f64
  end.

(** The sign and the range of a rounded non-zero mantissa: the result
    keeps the sign [s], and is infinite only when the value has more than
    1023 binary digits before the point. *)
Definition rounded_as (s : bool) (digits : Z) (x : float64) : Prop :=
  match x with
  | S754_finite s' _ _ => s' = s
  | S754_infinity s' => s' = s /\ 1023 < digits
  | _ => False
  end.

(** ** Exceptions and results *)

(** The exception classes that a call of this module can surface: the
    three that float(), numpy and scipy raise on the values below, and any
    other class, which the [__float__] method of an arbitrary object may
    raise. *)
Inductive exn : Type :=
| TypeError
| ValueError
| OverflowError
| OtherException (class_name : string).

Definition result (A : Type) : Type := (exn + A)%type.

Definition ok {A : Type} (x : A) : result A := inr x.
Definition raise {A : Type} (e : exn) : result A := inl e.

Definition rbind {A B : Type} (c : result A) (k : A -> result B) : result B :=
  match c with
  | inl e => inl e
  | inr x => k x
  end.

Declare Scope result_scope.
Delimit Scope result_scope with result.
Notation "x <- c ;; k" := (rbind c (fun x => k))
  (at level 61, c at next level, right associativity) : result_scope.

(** Methods run in a state-and-exception monad over the object they are
    called on, so that what a call does to [self] is part of its meaning. *)
Definition method (S A : Type) : Type := S -> result A * S.

Definition mret {S A : Type} (x : A) : method S A := fun s => (ok x, s).

Definition mbind {S A B : Type} (c : method S A) (k : A -> method S B)
  : method S B :=
  fun s =>
    match c s with
    | (inl e, s') => (inl e, s')
    | (inr x, s') => k x s'
    end.

Definition lift {S A : Type} (c : result A) : method S A := fun s => (c, s).

Definition getattr {S A : Type} (field : S -> A) : method S A :=
  fun s => (ok (field s), s).

Declare Scope method_scope.
Delimit Scope method_scope with method.
Notation "x <- c ;; k" := (mbind c (fun x => k))
  (at level 61, c at next level, right associativity) : method_scope.

(** ** numpy *)

Module Numpy.

(** The [kind] character of a numeric dtype. *)
Inductive kind : Type :=
| kind_b   (* boolean *)
| kind_u   (* unsigned integer *)
| kind_i   (* signed integer *)
| kind_f   (* floating point *)
| kind_c.  (* complex floating point *)

(** The element buffer of an array, homogeneous by construction.  A
    floating dtype narrower than float64 holds values that are binary64
    numbers already. *)
Inductive npdata : Type :=
| BoolData (l : list bool)
| UIntData (l : list N)
| IntData (l : list Z)
| FloatData (l : list float64)
| ComplexData (l : list (float64 * float64)).

Record ndarray : Type := { shape : list nat; buffer : npdata }.

Definition dtype_kind (d : npdata) : kind :=
  match d with
  | BoolData _ => kind_b
  | UIntData _ => kind_u
  | IntData _ => kind_i
  | FloatData _ => kind_f
  | ComplexData _ => kind_c
  end.

Definition size (d : npdata) : nat :=
  match d with
  | BoolData l => length l
  | UIntData l => length l
  | IntData l => length l
  | FloatData l => length l
  | ComplexData l => length l
  end.

(** numpy's ordering of kinds, used by the ['same_kind'] casting rule. *)
Definition dtype_kind_to_ordering (k : kind) : Z :=
  match k with
  | kind_b => 0
  | kind_u => 1
  | kind_i => 2
  | kind_f => 4
  | kind_c => 5
  end.

(** [np.can_cast(from, to, casting='same_kind')] on numeric kinds: a cast
    is allowed when it is safe or stays within or below the kind of the
    target; towards float64 every safe cast comes from a kind that is not
    above the floating kind. *)
Definition can_cast_same_kind (from to : kind) : bool :=
  dtype_kind_to_ordering from <=? dtype_kind_to_ordering to.

(** The float64 copy of a float64 buffer. *)
Definition astype_float64_of_float (l : list float64) : list float64 := l.

(** [arr.astype(np.float64, casting='same_kind')]: the casting rule is
    checked first and [TypeError] raised when it forbids the cast;
    otherwise a fresh float64 buffer is filled element by element (a
    complex element would keep its real part, which only the ['unsafe']
    rule lets happen). *)
Definition astype_float64 (d : npdata) : result (list float64) :=
  if can_cast_same_kind (dtype_kind d) kind_f then
    match d with
    | BoolData l => ok (map of_bool l)
    | UIntData l => ok (map (fun n => of_Z (Z.of_N n)) l)
    | IntData l => ok (map of_Z l)
    | FloatData l => ok (astype_float64_of_float l)
    | ComplexData l => ok (map fst l)
    end
  else raise TypeError.

(** [np.extract(condition, arr)]. *)
Fixpoint extract {A : Type} (cond : list bool) (arr : list A) : list A :=
  match cond, arr with
  | c :: cond', x :: arr' =>
      if c then x :: extract cond' arr' else extract cond' arr'
  | _, _ => []
  end.

(** [np.putmask(a, mask, value)] with a scalar value. *)
Fixpoint putmask {A : Type} (a : list A) (mask : list bool) (v : A) : list A :=
  match a, mask with
  | x :: a', m :: mask' => (if m then v else x) :: putmask a' mask' v
  | _, _ => a
  end.

(** [np.place(arr, mask, vals)]: the values go, in order, to the
    positions where the mask holds; [vals] is repeated when it is too
    short, and an empty [vals] with something to place is an error. *)
Fixpoint place_from {A : Type} (arr : list A) (mask : list bool)
         (vals cur : list A) : result (list A) :=
  match arr, mask with
  | x :: arr', m :: mask' =>
      if m then
        match cur with
        | v :: cur' =>
            (r <- place_from arr' mask' vals cur' ;; ok (v :: r))%result
        | [] =>
            match vals with
            | v :: cur' =>
                (r <- place_from arr' mask' vals cur' ;; ok (v :: r))%result
            | [] => raise ValueError
            end
        end
      else (r <- place_from arr' mask' vals cur ;; ok (x :: r))%result
  | _, _ => ok arr
  end.

Definition place {A : Type} (arr : list A) (mask : list bool) (vals : list A)
  : result (list A) :=
  place_from arr mask vals vals.

(** [np.ones_like(x)] and [np.zeros_like(x)] on a float64 array. *)
Definition ones_like (x : list float64) : list float64 := map (fun _ => one) x.
Definition zeros_like (x : list float64) : list float64 := map (fun _ => zero) x.

(** Element-wise [r op s] of a one-dimensional array [r] with an array of
    [n] equal entries [s], under numpy's broadcasting rule. *)
Definition broadcast_scalar (op : float64 -> float64 -> float64)
           (r : list float64) (n : nat) (s : float64) : result (list float64) :=
  if Nat.eqb (length r) n then ok (map (fun v => op v s) r)
  else if Nat.eqb (length r) 1 then ok (map (fun v => op v s) (concat (repeat r n)))
  else if Nat.eqb n 1 then ok (map (fun v => op v s) r)
  else raise ValueError.

End Numpy.

Import Numpy.

(** ** Python values *)

(** The Python objects that reach [Prior.pdf] and [Prior.logpdf]. *)
#[warnings="-register-all"]
Inductive pyobject : Type :=
| PyBool (b : bool)
| PyInt (n : Z)
| PyFloat (x : float64)
| PyComplex (re im : float64)
| PyList (items : list pyobject)
| PyTuple (items : list pyobject)
| NdArray (arr : ndarray)       (* type(value) is exactly numpy.ndarray *)
| NdSubclass (arr : ndarray)    (* an instance of a proper subclass, e.g. numpy.matrix *)
| NpComplex (re im : float64)   (* a numpy complex scalar, e.g. numpy.complex128 *)
| PyStr (s : string) (parsed : option float64)
    (* a str: its text and the double that float() reads from it, None
       when the text does not spell a number *)
| PyOther (conversion : result float64).
    (* any other object, with what float() does on it: the result or the
       exception of its __float__ method (numpy's real scalars, Decimal,
       Fraction), or TypeError when it has none (None, a dict) *)

(** A value after the cast: a Python float or a float64 array. *)
Inductive f64value : Type :=
| Scalar (x : float64)
| Array (shape : list nat) (data : list float64).

(** Python's [float(n)] on an integer: correctly rounded, and
    [OverflowError] when the integer lies beyond the binary64 range. *)
Definition float_of_int (n : Z) : result float64 :=
  let x := of_Z n in
  if is_finite x then ok x else raise OverflowError.

(** [ndarray.__float__], inherited by subclasses: only an array that
    holds exactly one element converts, through that element. *)
Definition array_float (arr : ndarray) : result float64 :=
  match buffer arr with
  | BoolData [b] => ok (of_bool b)
  | UIntData [n] => float_of_int (Z.of_N n)
  | IntData [n] => float_of_int n
  | FloatData [x] => ok x
  | _ => raise TypeError
  end.

(** [np.float(value)], that is the builtin [float(value)].  A Python
    complex is refused with [TypeError]; a numpy complex scalar is not: its
    [__float__] returns the real part and warns that the imaginary part is
    discarded.  A str is parsed, and [ValueError] is raised when it does
    not spell a number. *)
Definition np_float (value : pyobject) : result float64 :=
  match value with
  | PyBool b => ok (of_bool b)
  | PyInt n => float_of_int n
  | PyFloat x => ok x
  | PyComplex _ _ => raise TypeError
  | PyList _ => raise TypeError
  | PyTuple _ => raise TypeError
  | NdArray arr => array_float arr
  | NdSubclass arr => array_float arr
  | NpComplex re _ => ok re
  | PyStr _ (Some x) => ok x
  | PyStr _ None => raise ValueError
  | PyOther conversion => conversion
  end.

(** ** scipy.stats: continuous distributions *)

Module Scipy.

(** An instance of a subclass of [rv_continuous] without shape
    parameters: the support bounds given to the constructor and the
    methods the subclass defines.  [_logpdf] may be left to the base
    class. *)
Record rv_continuous : Type := {
  name : string;
  a : float64;
  b : float64;
  _pdf : list float64 -> list float64;
  _logpdf_override : option (list float64 -> list float64)
}.

(** What [Prior] holds: a distribution instance, whose methods are called
    with the default [loc=0] and [scale=1], or a frozen one that carries
    its location and scale. *)
Inductive rv : Type :=
| Generator (dist : rv_continuous)
| Frozen (dist : rv_continuous) (loc scale : float64).

Definition badvalue : float64 := nan.

(** [asarray(x)] of a cast value, and the way results are handed back: a
    zero-dimensional result is returned as a scalar ([output[()]]). *)
Definition asarray (v : f64value) : list nat * list float64 :=
  match v with
  | Scalar x => ([], [x])
  | Array sh d => (sh, d)
  end.

Definition unwrap (sh : list nat) (output : list float64) : f64value :=
  match sh with
  | [] => Scalar (hd nan output)
  | _ :: _ => Array sh output
  end.

(** [_argcheck()] of a distribution without shape parameters. *)
Definition _argcheck : bool := true.

Definition _support_mask (g : rv_continuous) (x : float64) : bool :=
  (a g <=? x)%f64 && (x <=? b g)%f64.

Definition standardise (loc scale x : float64) : float64 :=
  ((x - loc) / scale)%f64.

(** [rv_continuous.pdf(x, loc, scale)]:
    [[
      x = np.asarray((x - loc)/scale, dtype=dtyp)
      cond0 = self._argcheck( *args) & (scale > 0)
      cond1 = self._support_mask(x) & (scale > 0)
      cond = cond0 & cond1
      output = zeros(shape(cond), dtyp)
      putmask(output, (1-cond0)+np.isnan(x), self.badvalue)
      if np.any(cond):
          goodargs = argsreduce(cond, x, scale)
          scale, goodargs = goodargs[-1], goodargs[:-1]
          place(output, cond, self._pdf(goodargs) / scale)
      if output.ndim == 0:
          return output[()]
      return output
    ]] *)
Definition pdf (g : rv_continuous) (loc scale : float64) (v : f64value)
  : result f64value :=
  let '(sh, xs) := asarray v in
  let x := map (standardise loc scale) xs in
  let cond0 := _argcheck && (zero <? scale)%f64 in
  let cond1 := map (fun y => _support_mask g y && (zero <? scale)%f64) x in
  let cond := map (andb cond0) cond1 in
  let output := map (fun _ => zero) cond in
  let output := putmask output (map (fun y => negb cond0 || isnan y) x) badvalue in
  (output <-
     (if existsb (fun c => c) cond then
        let goodargs := extract cond x in
        (vals <- broadcast_scalar div (_pdf g goodargs) (length goodargs) scale ;;
         place output cond vals)
      else ok output) ;;
   ok (unwrap sh output))%result.

Section Template.

(** numpy's [log] on float64, supplied by the platform's libm. *)
Variable log : float64 -> float64.

(** [rv_continuous._logpdf]: the subclass's method, or the base class's
    [log(self._pdf(x))]. *)
Definition _logpdf (g : rv_continuous) (x : list float64) : list float64 :=
  match _logpdf_override g with
  | Some f => f x
  | None => map log (_pdf g x)
  end.

(** [rv_continuous.logpdf(x, loc, scale)]: as [pdf], with the output
    filled with [-inf] and
    [place(output, cond, self._logpdf(goodargs) - log(scale))]. *)
Definition logpdf (g : rv_continuous) (loc scale : float64) (v : f64value)
  : result f64value :=
  let '(sh, xs) := asarray v in
  let x := map (standardise loc scale) xs in
  let cond0 := _argcheck && (zero <? scale)%f64 in
  let cond1 := map (fun y => _support_mask g y && (zero <? scale)%f64) x in
  let cond := map (andb cond0) cond1 in
  let output := map (fun _ => ninf) cond in
  let output := putmask output (map (fun y => negb cond0 || isnan y) x) badvalue in
  (output <-
     (if existsb (fun c => c) cond then
        let goodargs := extract cond x in
        (vals <- broadcast_scalar sub (_logpdf g goodargs) (length goodargs) (log scale) ;;
         place output cond vals)
      else ok output) ;;
   ok (unwrap sh output))%result.

Definition rv_logpdf (r : rv) (v : f64value) : result f64value :=
  match r with
  | Generator g => logpdf g zero one v
  | Frozen g loc scale => logpdf g loc scale v
  end.

End Template.

(** The methods as called on what [Prior] holds. *)
Definition rv_pdf (r : rv) (v : f64value) : result f64value :=
  match r with
  | Generator g => pdf g zero one v
  | Frozen g loc scale => pdf g loc scale v
  end.

(** [uniform_gen._pdf]: [1.0*(x==x)]. *)
Definition uniform_pdf_elem (y : float64) : float64 :=
  (one * of_bool (y == y))%f64.

(** [scipy.stats.uniform]: [uniform_gen(a=0.0, b=1.0, name='uniform')],
    whose [_logpdf] is inherited. *)
Definition uniform : rv_continuous := {|
  name := "uniform";
  a := zero;
  b := one;
  _pdf := map uniform_pdf_elem;
  _logpdf_override := None
|}.

(** [scipy.stats.uniform(loc, scale)]: freezing performs no check. *)
Definition uniform_call (loc scale : float64) : result rv :=
  ok (Frozen uniform loc scale).

End Scipy.

Import Scipy.

(** ** prior.py *)

Module Prior.

(** class Prior(object) *)
Record t : Type := { _rv : rv }.

(** [Prior.__init__(self, rv)]: [self._rv = rv]. *)
Definition __init__ (rv : Scipy.rv) : t := {| _rv := rv |}.

(** The first four lines of [pdf] and of [logpdf]:
    [[
      if type(value) == np.ndarray:
          v = value.astype(np.float64,casting='same_kind')
      else:
          v = np.float(value)
    ]] *)
Definition cast (value : pyobject) : result f64value :=
  match value with
  | NdArray arr =>
      (data <- astype_float64 (buffer arr) ;; ok (Array (shape arr) data))%result
  | _ =>
      (x <- np_float value ;; ok (Scalar x))%result
  end.

(** [return self._rv.pdf(v)] *)
Definition pdf (value : pyobject) : method t f64value :=
  (v <- lift (cast value) ;;
   rv <- getattr _rv ;;
   lift (rv_pdf rv v))%method.

(** [return self._rv.logpdf(v)] *)
Definition logpdf (log : float64 -> float64) (value : pyobject)
  : method t f64value :=
  (v <- lift (cast value) ;;
   rv <- getattr _rv ;;
   lift (rv_logpdf log rv v))%method.

End Prior.

(** class UniformUnnormedRV_generator(rv_continuous): [_pdf] is
    [np.ones_like(x).astype(np.float64, casting='same_kind')] and
    [_logpdf] is [np.zeros_like(x).astype(np.float64,casting='same_kind')]. *)
Definition UniformUnnormedRV_generator (name : string) (a b : float64)
  : rv_continuous := {|
  Scipy.name := name;
  Scipy.a := a;
  Scipy.b := b;
  _pdf := fun x => astype_float64_of_float (ones_like x);
  _logpdf_override := Some (fun x => astype_float64_of_float (zeros_like x))
|}.

(** def UniformUnnormedRV(lower=-np.inf, upper=np.inf):
    [return UniformUnnormedRV_generator(name='unnormed_uniform', a=lower, b=upper)] *)
Definition UniformUnnormedRV (lower upper : float64) : result rv :=
  ok (Generator (UniformUnnormedRV_generator "unnormed_uniform" lower upper)).

(** def UniformBoundedRV(lower=0., upper=1.):
    [uu = scipy.stats.uniform(lower, (upper-lower)); return uu] *)
Definition UniformBoundedRV (lower upper : float64) : result rv :=
  (uu <- uniform_call lower (upper - lower)%f64 ;;
   ok uu)%result.

(** Calls that leave keyword arguments to their defaults. *)
Definition default {A : Type} (d : A) (arg : option A) : A :=
  match arg with
  | Some x => x
  | None => d
  end.

Definition UniformUnnormedRV_kw (lower upper : option float64) : result rv :=
  UniformUnnormedRV (default ninf lower) (default inf upper).

Definition UniformBoundedRV_kw (lower upper : option float64) : result rv :=
  UniformBoundedRV (default zero lower) (default one upper).

(** ** Vocabulary of the statements *)

(** The masks of the template at a standardised point [y]. *)
Definition cond0 (scale : float64) : bool := _argcheck && (zero <? scale)%f64.

Definition selected (g : rv_continuous) (scale y : float64) : bool :=
  cond0 scale && (_support_mask g y && (zero <? scale)%f64).

Definition unusable (scale y : float64) : bool := negb (cond0 scale) || isnan y.

(** What [pdf] leaves at the position of [x] when [_pdf] acts as [f] on
    every element, and likewise for [logpdf]. *)
Definition pdf_at (g : rv_continuous) (loc scale : float64)
           (f : float64 -> float64) (x : float64) : float64 :=
  let y := standardise loc scale x in
  if selected g scale y then (f y / scale)%f64
  else if unusable scale y then badvalue else zero.

Definition logpdf_at (log : float64 -> float64) (g : rv_continuous)
           (loc scale : float64) (f : float64 -> float64) (x : float64)
  : float64 :=
  let y := standardise loc scale x in
  if selected g scale y then (f y - log scale)%f64
  else if unusable scale y then badvalue else ninf.

(** The density of the unnormalised uniform distribution at one point,
    and its logarithm. *)
Definition unnormed_pdf_at (lower upper x : float64) : float64 :=
  if (lower <=? x)%f64 && (x <=? upper)%f64 then one
  else if isnan x then nan else zero.

Definition unnormed_logpdf_at (log : float64 -> float64)
           (lower upper x : float64) : float64 :=
  if (lower <=? x)%f64 && (x <=? upper)%f64 then (zero - log one)%f64
  else if isnan x then nan else ninf.

(** A result has the shape of the value it was computed from: a scalar
    for a zero-dimensional value, else an array of the same shape with as
    many elements. *)
Definition same_shape (v r : f64value) : Prop :=
  match fst (asarray v) with
  | [] => exists y, r = Scalar y
  | sh => exists out, r = Array sh out /\ length out = length (snd (asarray v))
  end.

(** Evaluating the distribution a factory call returned. *)
Definition pdf_of (r : result rv) (v : f64value) : result f64value :=
  (d <- r ;; rv_pdf d v)%result.

Definition logpdf_of (log : float64 -> float64) (r : result rv) (v : f64value)
  : result f64value :=
  (d <- r ;; rv_logpdf log d v)%result.

(** The numeric inputs of [pdf] and [logpdf] and their kind: Python
    numbers, numpy complex scalars and arrays whose type is exactly
    [numpy.ndarray]. *)
Definition input_kind (value : pyobject) : option kind :=
  match value with
  | PyBool _ => Some kind_b
  | PyInt _ => Some kind_i
  | PyFloat _ => Some kind_f
  | PyComplex _ _ => Some kind_c
  | NdArray arr => Some (dtype_kind (buffer arr))
  | NpComplex _ _ => Some kind_c
  | PyList _ | PyTuple _ | NdSubclass _ | PyStr _ _ | PyOther _ => None
  end.

(** An input can be converted to floating point of the same kind when its
    kind is not above the floating kind. *)
Definition castable_to_float (value : pyobject) : Prop :=
  match input_kind value with
  | Some k => dtype_kind_to_ordering k <= dtype_kind_to_ordering kind_f
  | None => False
  end.

(** Sequences that [float()] refuses: lists, tuples, and instances of an
    ndarray subclass that do not hold exactly one element. *)
Inductive refused_sequence : pyobject -> Prop :=
| refused_list (l : list pyobject) : refused_sequence (PyList l)
| refused_tuple (l : list pyobject) : refused_sequence (PyTuple l)
| refused_subclass (arr : ndarray) :
    size (buffer arr) <> 1%nat -> refused_sequence (NdSubclass arr).

(** A call of one of the two methods, and a run of calls on one object. *)
Inductive call : Type :=
| call_pdf (value : pyobject)
| call_logpdf (value : pyobject).

Definition do_call (log : float64 -> float64) (c : call)
  : method Prior.t f64value :=
  match c with
  | call_pdf value => Prior.pdf value
  | call_logpdf value => Prior.logpdf log value
  end.

Fixpoint run (log : float64 -> float64) (cs : list call) (p : Prior.t)
  : list (result f64value) * Prior.t :=
  match cs with
  | [] => ([], p)
  | c :: cs' =>
      let '(r, p') := do_call log c p in
      let '(rs, p'') := run log cs' p' in
      (r :: rs, p'')
  end.

(** ** Vocabulary of the further properties *)

(** The distribution, location and scale that the methods of [rv] use. *)
Definition dist_of (r : rv) : rv_continuous :=
  match r with
  | Generator g => g
  | Frozen g _ _ => g
  end.

Definition loc_of (r : rv) : float64 :=
  match r with
  | Generator _ => zero
  | Frozen _ loc _ => loc
  end.

Definition scale_of (r : rv) : float64 :=
  match r with
  | Generator _ => one
  | Frozen _ _ scale => scale
  end.

(** The largest binary64 number. *)
Definition max_float : float64 := S754_finite false 0x1fffffffffffff 971.

(** The exceptions of the cast, by the type of the input: none for a bool,
    a float and a numpy complex scalar; OverflowError for an int;
    TypeError for a Python complex, a list, a tuple and an ndarray;
    TypeError or OverflowError for an instance of an ndarray subclass;
    ValueError for a str; for any other object, what its own conversion
    raises. *)
Definition cast_exception (value : pyobject) (e : exn) : Prop :=
  match value with
  | PyBool _ | PyFloat _ | NpComplex _ _ => False
  | PyInt _ => e = OverflowError
  | PyComplex _ _ | PyList _ | PyTuple _ | NdArray _ => e = TypeError
  | NdSubclass _ => e = TypeError \/ e = OverflowError
  | PyStr _ _ => e = ValueError
  | PyOther conversion => conversion = raise e
  end.

(* ===================================================================== *)
(** * Part II: facts                                                      *)
(* ===================================================================== *)

(** ** Binary64 arithmetic *)

Section Binary64Facts.

Lemma sub_zero_r (x : float64) : (x - zero)%f64 = x.
Proof. destruct x as [[|]|[|]| |s m e]; reflexivity. Qed.

Lemma div_eucl_pow2 (m : positive) (k : positive) :
  Z.div_eucl (Z.shiftl (Zpos m) (Zpos k)) 4503599627370496
  = (Z.shiftl (Zpos m) (Zpos k) / 4503599627370496,
     Z.shiftl (Zpos m) (Zpos k) mod 4503599627370496).
Proof.
  unfold Z.div, Z.modulo.
  destruct (Z.div_eucl _ _); reflexivity.
Qed.

(** The exponent of a canonical mantissa: either the number sits in the
    lowest binade (exponent [-1074], at most 53 digits) or it has exactly
    53 digits. *)
Lemma canonical_cases (m : positive) (e : Z) :
  canonical_mantissa prec emax m e = true ->
  (e = -1074 /\ Zpos (digits2_pos m) <= 53)
  \/ (-1074 < e /\ Zpos (digits2_pos m) = 53).
Proof.
  unfold canonical_mantissa, fexp, SpecFloat.emin, prec, emax.
  intros H. apply Z.eqb_eq in H. lia.
Qed.

Lemma canonical_exponent (m : positive) (e : Z) :
  canonical_mantissa prec emax m e = true -> -1074 <= e.
Proof. intros H. destruct (canonical_cases _ _ H); lia. Qed.

Lemma bounded_canonical (m : positive) (e : Z) :
  bounded prec emax m e = true -> canonical_mantissa prec emax m e = true.
Proof. unfold bounded. intros H. now apply andb_prop in H. Qed.

Lemma shr_fexp_canonical (m : positive) (e : Z) :
  canonical_mantissa prec emax m e = true ->
  shr_fexp prec emax (Zpos m) e loc_Exact
  = (Build_shr_record (Zpos m) false false, e).
Proof.
  unfold canonical_mantissa, shr_fexp. intros Hc. apply Z.eqb_eq in Hc.
  cbn [Zdigits2 shr_record_of_loc]. rewrite Hc, Z.sub_diag. reflexivity.
Qed.

(** Rounding an exactly representable value returns it. *)
Lemma round_exact_canonical (s : bool) (m : positive) (e : Z) :
  bounded prec emax m e = true ->
  binary_round_aux prec emax s (Zpos m) e loc_Exact = S754_finite s m e.
Proof.
  unfold bounded. intros H. apply andb_prop in H. destruct H as [Hc He].
  unfold binary_round_aux. rewrite (shr_fexp_canonical _ _ Hc).
  cbn [shr_m loc_of_shr_record round_nearest_even].
  rewrite (shr_fexp_canonical _ _ Hc). cbn [shr_m]. rewrite He. reflexivity.
Qed.

(** The same value presented with one extra low zero bit. *)
Lemma round_exact_double (s : bool) (m : positive) (e : Z) :
  bounded prec emax m e = true ->
  Zpos (digits2_pos m) = 53 ->
  binary_round_aux prec emax s (Zpos m~0) (e - 1) loc_Exact
  = S754_finite s m e.
Proof.
  intros Hb Hd.
  pose proof Hb as Hb'. unfold bounded in Hb'.
  apply andb_prop in Hb'. destruct Hb' as [Hc He].
  pose proof Hc as Hc'. unfold canonical_mantissa in Hc'.
  apply Z.eqb_eq in Hc'.
  assert (Hf : fexp prec emax (Zdigits2 (Zpos m~0) + (e - 1)) - (e - 1) = 1).
  { cbn [Zdigits2 digits2_pos]. rewrite Pos2Z.inj_succ.
    replace (Z.succ (Zpos (digits2_pos m)) + (e - 1))
      with (Zpos (digits2_pos m) + e) by lia.
    rewrite Hc'. lia. }
  unfold binary_round_aux, shr_fexp at 1. rewrite Hf.
  cbn [shr_record_of_loc shr iter_pos shr_1 orb shr_m loc_of_shr_record
       round_nearest_even].
  replace (e - 1 + 1) with e by lia.
  rewrite (shr_fexp_canonical _ _ Hc). cbn [shr_m]. rewrite He. reflexivity.
Qed.

Lemma div_core_one_low (m : positive) :
  Zpos (digits2_pos m) <= 53 ->
  SFdiv_core_binary prec emax (Zpos m) (-1074) 4503599627370496 (-52)
  = (Zpos m, -1074, loc_Exact).
Proof.
  intros Hd. unfold SFdiv_core_binary.
  cbn [Zdigits2].
  change (Zpos (digits2_pos 4503599627370496)) with 53.
  replace (Z.min (fexp prec emax (Zpos (digits2_pos m) + -1074 - (53 + -52)))
                 (-1074 - -52)) with (-1074)
    by (unfold fexp, SpecFloat.emin, prec, emax; lia).
  change (-1074 - -52 - -1074) with 52.
  cbv beta iota zeta.
  rewrite div_eucl_pow2, Z.shiftl_mul_pow2 by lia.
  change (2 ^ 52) with 4503599627370496.
  rewrite Z.div_mul, Z.mod_mul by lia. reflexivity.
Qed.

Lemma div_core_one_high (m : positive) (e : Z) :
  -1074 < e -> Zpos (digits2_pos m) = 53 ->
  SFdiv_core_binary prec emax (Zpos m) e 4503599627370496 (-52)
  = (Zpos m~0, e - 1, loc_Exact).
Proof.
  intros He Hd. unfold SFdiv_core_binary.
  cbn [Zdigits2]. rewrite Hd.
  change (Zpos (digits2_pos 4503599627370496)) with 53.
  replace (Z.min (fexp prec emax (53 + e - (53 + -52))) (e - -52))
    with (e - 1) by (unfold fexp, SpecFloat.emin, prec, emax; lia).
  replace (e - -52 - (e - 1)) with 53 by lia.
  cbv beta iota zeta.
  rewrite div_eucl_pow2, Z.shiftl_mul_pow2 by lia.
  replace (Zpos m * 2 ^ 53) with (Zpos m~0 * 4503599627370496)
    by (change (2 ^ 53) with (2 * 4503599627370496); lia).
  rewrite Z.div_mul, Z.mod_mul by lia. reflexivity.
Qed.

(** Dividing a binary64 number by 1.0 returns it unchanged. *)
Lemma div_one_r (x : float64) : valid x = true -> (x / one)%f64 = x.
Proof.
  destruct x as [[|]|[|]| |s m e]; try reflexivity.
  cbn [valid valid_binary]. intros Hb.
  pose proof (bounded_canonical _ _ Hb) as Hc.
  unfold div, one, SFdiv. rewrite xorb_false_r.
  destruct (canonical_cases _ _ Hc) as [[-> Hd]|[He Hd]].
  - rewrite (div_core_one_low _ Hd). now apply round_exact_canonical.
  - rewrite (div_core_one_high _ _ He Hd). now apply round_exact_double.
Qed.

(** Standardising with location 0 and scale 1 changes nothing. *)
Lemma standardise_identity (x : float64) :
  valid x = true -> standardise zero one x = x.
Proof.
  intros Hx. unfold standardise. rewrite sub_zero_r. now apply div_one_r.
Qed.

End Binary64Facts.

(** ** Rounding: sign and range *)

Section RoundingFacts.

(** The number of binary digits of a positive number, against shifts,
    powers of two and the successor. *)
Lemma digits2_succ_xO (m : positive) (k : positive) :
  Zpos (digits2_pos (Pos.iter xO m k)) = Zpos (digits2_pos m) + Zpos k.
Proof.
  induction k as [|k IH] using Pos.peano_ind.
  - cbn. lia.
  - rewrite Pos.iter_succ. cbn [digits2_pos]. lia.
Qed.

Lemma digits2_lower (m : positive) : 2 ^ (Zpos (digits2_pos m) - 1) <= Zpos m.
Proof.
  induction m as [m IH|m IH|]; cbn [digits2_pos]; [| |cbn; lia].
  - rewrite Pos2Z.inj_succ.
    replace (Z.succ (Zpos (digits2_pos m)) - 1) with (Z.succ (Zpos (digits2_pos m) - 1)) by lia.
    rewrite Z.pow_succ_r by lia. lia.
  - rewrite Pos2Z.inj_succ.
    replace (Z.succ (Zpos (digits2_pos m)) - 1) with (Z.succ (Zpos (digits2_pos m) - 1)) by lia.
    rewrite Z.pow_succ_r by lia. lia.
Qed.

Lemma digits2_upper (m : positive) : Zpos m < 2 ^ Zpos (digits2_pos m).
Proof.
  induction m as [m IH|m IH|]; cbn [digits2_pos]; [| |cbn; lia];
    rewrite Pos2Z.inj_succ, Z.pow_succ_r by lia; lia.
Qed.

Lemma digits2_succ (m : positive) :
  Zpos (digits2_pos m) <= Zpos (digits2_pos (Pos.succ m)) <= Zpos (digits2_pos m) + 1.
Proof.
  induction m as [m IH|m IH|]; cbn [Pos.succ digits2_pos]; lia.
Qed.

(** Shifting right by fewer places than there are digits leaves a
    positive mantissa with that many digits less. *)
Lemma shr_1_pos (m : positive) (r s : bool) :
  1 < Zpos (digits2_pos m) ->
  exists m' r' s',
    shr_1 (Build_shr_record (Zpos m) r s) = Build_shr_record (Zpos m') r' s'
    /\ Zpos (digits2_pos m') = Zpos (digits2_pos m) - 1.
Proof.
  destruct m as [m|m|]; cbn [digits2_pos shr_1]; intros H.
  - do 3 eexists. split; [reflexivity|lia].
  - do 3 eexists. split; [reflexivity|lia].
  - lia.
Qed.

Lemma iter_shr_1_pos (k : positive) :
  forall (m : positive) (r s : bool),
    Zpos k < Zpos (digits2_pos m) ->
    exists m' r' s',
      iter_pos shr_1 k (Build_shr_record (Zpos m) r s)
      = Build_shr_record (Zpos m') r' s'
      /\ Zpos (digits2_pos m') = Zpos (digits2_pos m) - Zpos k.
Proof.
  induction k as [k IH|k IH|]; intros m r s H; cbn [iter_pos].
  - destruct (shr_1_pos m r s) as (m1 & r1 & s1 & -> & H1); [lia|].
    destruct (IH m1 r1 s1) as (m2 & r2 & s2 & -> & H2); [lia|].
    destruct (IH m2 r2 s2) as (m3 & r3 & s3 & -> & H3); [lia|].
    do 3 eexists. split; [reflexivity|lia].
  - destruct (IH m r s) as (m2 & r2 & s2 & -> & H2); [lia|].
    destruct (IH m2 r2 s2) as (m3 & r3 & s3 & -> & H3); [lia|].
    do 3 eexists. split; [reflexivity|lia].
  - destruct (shr_1_pos m r s) as (m1 & r1 & s1 & -> & H1); [lia|].
    do 3 eexists. split; [reflexivity|lia].
Qed.

(** Rounding to nearest even keeps the mantissa or takes its successor. *)
Lemma round_nearest_even_pos (m : positive) (l : location) :
  exists m', round_nearest_even (Zpos m) l = Zpos m'
             /\ Zpos (digits2_pos m) <= Zpos (digits2_pos m') <= Zpos (digits2_pos m) + 1.
Proof.
  pose proof (digits2_succ m) as Hs.
  assert (Hadd : Zpos m + 1 = Zpos (Pos.succ m)) by lia.
  destruct l as [|[| |]]; cbn [round_nearest_even];
    try (exists m; split; [reflexivity|lia]).
  - destruct (Z.even (Zpos m)).
    + exists m; split; [reflexivity|lia].
    + exists (Pos.succ m). split; [exact Hadd|lia].
  - exists (Pos.succ m). split; [exact Hadd|lia].
Qed.

(** Rounding a mantissa of more than 53 digits: it is shifted down to 53
    digits, rounded, and shifted once more when the rounding carried. *)
Lemma binary_round_aux_long (s : bool) (m : positive) (e : Z) :
  -1074 <= e -> 53 < Zpos (digits2_pos m) ->
  rounded_as s (Zpos (digits2_pos m) + e)
             (binary_round_aux prec emax s (Zpos m) e loc_Exact).
Proof.
  intros He Hd. set (d := Zpos (digits2_pos m)) in *.
  unfold rounded_as, binary_round_aux, shr_fexp at 1. cbn [Zdigits2]. fold d.
  replace (fexp prec emax (d + e) - e) with (d - 53)
    by (unfold fexp, SpecFloat.emin, prec, emax; lia).
  destruct (d - 53) as [|k|k] eqn:Hk; try lia.
  cbn [shr shr_record_of_loc].
  destruct (iter_shr_1_pos k m false false) as (m1 & r1 & s1 & -> & H1);
    [fold d; lia|]. fold d in H1.
  cbn [shr_m].
  destruct (round_nearest_even_pos m1 (loc_of_shr_record (Build_shr_record (Zpos m1) r1 s1)))
    as (m2 & -> & H2).
  unfold shr_fexp. cbn [Zdigits2 shr_record_of_loc].
  set (d2 := Zpos (digits2_pos m2)) in *.
  replace (fexp prec emax (d2 + (e + Zpos k)) - (e + Zpos k)) with (d2 - 53)
    by (unfold fexp, SpecFloat.emin, prec, emax; lia).
  assert (Hc : d2 = 53 \/ d2 = 54) by lia.
  destruct Hc as [Hc|Hc]; rewrite Hc.
  - change (53 - 53) with 0. cbn [shr shr_m].
    destruct (e + Zpos k <=? emax - prec) eqn:El; cbv beta iota; [reflexivity|].
    split; [reflexivity|]. apply Z.leb_gt in El. unfold emax, prec in El. lia.
  - change (54 - 53) with 1. cbn [shr iter_pos].
    destruct (shr_1_pos m2 false false) as (m3 & r3 & s3 & -> & H3);
      [fold d2; lia|].
    cbn [shr_m].
    destruct (e + Zpos k + 1 <=? emax - prec) eqn:El; cbv beta iota; [reflexivity|].
    split; [reflexivity|]. apply Z.leb_gt in El. unfold emax, prec in El. lia.
Qed.

(** Rounding a non-zero value never gives zero or NaN, keeps the sign,
    and overflows only beyond 1023 digits before the point. *)
Lemma binary_round_shape (s : bool) (m : positive) (e : Z) :
  -1074 <= e ->
  rounded_as s (Zpos (digits2_pos m) + e) (binary_round prec emax s m e).
Proof.
  intros He. unfold rounded_as, binary_round, shl_align.
  set (d := Zpos (digits2_pos m)).
  destruct (fexp prec emax (d + e) - e) as [|k|k] eqn:Hk.
  - (* already aligned *)
    assert (Hc : canonical_mantissa prec emax m e = true).
    { unfold canonical_mantissa. fold d. apply Z.eqb_eq. lia. }
    unfold binary_round_aux. rewrite (shr_fexp_canonical _ _ Hc).
    cbn [shr_m loc_of_shr_record round_nearest_even].
    rewrite (shr_fexp_canonical _ _ Hc). cbn [shr_m].
    destruct (e <=? emax - prec) eqn:El; cbv beta iota; [reflexivity|].
    split; [reflexivity|]. apply Z.leb_gt in El. revert Hk El.
    unfold fexp, SpecFloat.emin, emax, prec. lia.
  - (* too many digits: rounding *)
    apply binary_round_aux_long; [exact He|]. fold d. revert Hk.
    unfold fexp, SpecFloat.emin, emax, prec. lia.
  - (* too few digits: the mantissa is shifted left *)
    set (mz := Pos.iter xO m k). set (ez := fexp prec emax (d + e)).
    assert (Hdz : Zpos (digits2_pos mz) = d + Zpos k)
      by apply digits2_succ_xO.
    assert (Hez : ez = e - Zpos k) by (unfold ez; lia).
    assert (Hc : canonical_mantissa prec emax mz ez = true).
    { unfold canonical_mantissa. apply Z.eqb_eq. rewrite Hdz, Hez.
      replace (d + Zpos k + (e - Zpos k)) with (d + e) by lia.
      fold ez. lia. }
    unfold binary_round_aux. rewrite (shr_fexp_canonical _ _ Hc).
    cbn [shr_m loc_of_shr_record round_nearest_even].
    rewrite (shr_fexp_canonical _ _ Hc). cbn [shr_m].
    destruct (ez <=? emax - prec) eqn:El; cbv beta iota; [reflexivity|].
    split; [reflexivity|]. apply Z.leb_gt in El. revert El.
    unfold ez, fexp, SpecFloat.emin, emax, prec. lia.
Qed.

Lemma binary_round_finite (s : bool) (m : positive) :
  Zpos m < 2 ^ 1023 -> is_finite (binary_round prec emax s m 0) = true.
Proof.
  intros Hm.
  pose proof (binary_round_shape s m 0 ltac:(lia)) as H.
  pose proof (digits2_lower m) as Hl.
  destruct (binary_round prec emax s m 0); cbn in H |- *;
    try reflexivity; try contradiction.
  destruct H as [_ H].
  assert (2 ^ 1023 <= 2 ^ (Zpos (digits2_pos m) - 1))
    by (apply Z.pow_le_mono_r; lia).
  lia.
Qed.

(** An integer of magnitude below 2^1023 converts to a finite double. *)
Lemma of_Z_finite (n : Z) : Z.abs n < 2 ^ 1023 -> is_finite (of_Z n) = true.
Proof.
  intros Hn. unfold of_Z, binary_normalize.
  destruct n as [|m|m]; [reflexivity| |]; cbn [Z.abs] in Hn;
    now apply binary_round_finite.
Qed.

(** The value of a mantissa aligned on a smaller exponent. *)
Lemma iter_xO_value (m k : positive) :
  Zpos (Pos.iter xO m k) = Zpos m * 2 ^ Zpos k.
Proof.
  induction k as [|k IH] using Pos.peano_ind.
  - cbn. lia.
  - rewrite Pos.iter_succ, Pos2Z.inj_succ, Z.pow_succ_r by lia.
    rewrite Pos2Z.inj_xO, IH. lia.
Qed.

Lemma shl_align_value (m : positive) (e ez : Z) :
  ez <= e -> Zpos (fst (shl_align m e ez)) = Zpos m * 2 ^ (e - ez).
Proof.
  intros H. unfold shl_align.
  destruct (ez - e) as [|k|k] eqn:Hk; cbn [fst]; try lia.
  - replace (e - ez) with 0 by lia. lia.
  - rewrite iter_xO_value. f_equal. f_equal. lia.
Qed.

(** Of two canonical numbers the one with the larger exponent is the
    larger, once both mantissas are aligned on the smaller exponent. *)
Lemma aligned_lt (m1 m2 : positive) (e1 e2 : Z) :
  canonical_mantissa prec emax m1 e1 = true ->
  canonical_mantissa prec emax m2 e2 = true ->
  e1 < e2 ->
  Zpos m1 * 2 ^ (e1 - e1) < Zpos m2 * 2 ^ (e2 - e1).
Proof.
  intros H1 H2 He.
  destruct (canonical_cases _ _ H1) as [[He1 Hd1]|[He1 Hd1]];
    destruct (canonical_cases _ _ H2) as [[He2 Hd2]|[He2 Hd2]]; try lia.
  - pose proof (digits2_upper m1) as U. pose proof (digits2_lower m2) as L.
    rewrite Hd2 in L. change (2 ^ (53 - 1)) with 4503599627370496 in L.
    assert (Zpos m1 < 9007199254740992).
    { eapply Z.lt_le_trans; [exact U|].
      change 9007199254740992 with (2 ^ 53). apply Z.pow_le_mono_r; lia. }
    assert (2 ^ 1 <= 2 ^ (e2 - e1)) by (apply Z.pow_le_mono_r; lia).
    rewrite Z.sub_diag. change (2 ^ 0) with 1. change (2 ^ 1) with 2 in *.
    nia.
  - pose proof (digits2_upper m1) as U. pose proof (digits2_lower m2) as L.
    rewrite Hd1 in U. rewrite Hd2 in L.
    change (2 ^ (53 - 1)) with 4503599627370496 in L.
    change (2 ^ 53) with 9007199254740992 in U.
    assert (2 ^ 1 <= 2 ^ (e2 - e1)) by (apply Z.pow_le_mono_r; lia).
    rewrite Z.sub_diag. change (2 ^ 0) with 1. change (2 ^ 1) with 2 in *.
    nia.
Qed.

(** A positive integer multiple of a power of two above the smallest
    subnormal rounds to a positive number. *)
Lemma positive_rounds_positive (n ez : Z) :
  0 < n -> -1074 <= ez ->
  (zero <? binary_normalize prec emax n ez false)%f64 = true.
Proof.
  intros Hn He. destruct n as [|p|p]; try lia. cbn [binary_normalize].
  pose proof (binary_round_shape false p ez He) as H.
  destruct (binary_round prec emax false p ez) as [s|s| |s m e];
    cbn in H; try contradiction.
  - destruct H as [-> _]. reflexivity.
  - subst s. reflexivity.
Qed.

(** The difference of two binary64 numbers in strict order is positive:
    it never rounds to zero. *)
Lemma sub_positive (lower upper : float64) :
  valid lower = true -> valid upper = true ->
  (lower <? upper)%f64 = true -> (zero <? upper - lower)%f64 = true.
Proof.
  destruct upper as [su|su| |su mu eu], lower as [sl|sl| |sl ml el];
    cbn [valid valid_binary]; intros Vl Vu;
    try (destruct su, sl; cbn; congruence);
    try (destruct su; cbn; congruence);
    try (destruct sl; cbn; congruence);
    try (cbn; congruence).
  apply bounded_canonical in Vl, Vu.
  pose proof (canonical_exponent _ _ Vl) as El.
  pose proof (canonical_exponent _ _ Vu) as Eu.
  unfold ltb, SFltb, sub, SFsub. cbn [SFcompare].
  intros H. apply positive_rounds_positive; [|lia].
  destruct (Z.compare_spec el eu) as [Heq|Hlt|Hgt].
  - subst eu. rewrite Z.min_id.
    rewrite !shl_align_value, Z.sub_diag by lia. change (2 ^ 0) with 1.
    change (Pos.compare_cont Eq ml mu) with (Pos.compare ml mu) in H.
    destruct sl, su; cbn [cond_Zopp]; try discriminate; try lia;
      destruct (Pos.compare_spec ml mu); try discriminate; lia.
  - rewrite (Z.min_r eu el) by lia.
    rewrite !shl_align_value by lia.
    pose proof (aligned_lt ml mu el eu Vl Vu Hlt) as A.
    destruct sl, su; cbn [cond_Zopp]; try discriminate; lia.
  - rewrite (Z.min_l eu el) by lia.
    rewrite !shl_align_value by lia.
    pose proof (aligned_lt mu ml eu el Vu Vl Hgt) as A.
    destruct sl, su; cbn [cond_Zopp]; try discriminate; lia.
Qed.

End RoundingFacts.

(** ** Binary64 comparisons *)

Section CompareFacts.

Lemma SFcompare_antisym (x y : float64) :
  SFcompare y x = option_map CompOpp (SFcompare x y).
Proof.
  destruct x as [sx|sx| |sx mx ex], y as [sy|sy| |sy my ey]; cbn;
    try reflexivity;
    try (destruct sx; reflexivity);
    try (destruct sy; reflexivity);
    try (destruct sx, sy; reflexivity).
  destruct sx, sy; try reflexivity; f_equal;
    rewrite (Z.compare_antisym ex ey);
    destruct (ex ?= ey); cbn [CompOpp]; try reflexivity;
    rewrite (Pos.compare_cont_antisym mx my Eq); reflexivity.
Qed.

Lemma ltb_leb_false (x y : float64) :
  (x <? y)%f64 = true -> (y <=? x)%f64 = false.
Proof.
  unfold ltb, leb, SFltb, SFleb. rewrite (SFcompare_antisym x y).
  destruct (SFcompare x y) as [[| |]|]; cbn; congruence.
Qed.

Lemma ltb_not_nan_l (x y : float64) : (x <? y)%f64 = true -> isnan x = false.
Proof. destruct x, y; cbn; congruence. Qed.

Lemma ltb_not_nan_r (x y : float64) : (x <? y)%f64 = true -> isnan y = false.
Proof. destruct x, y; cbn; congruence. Qed.

Lemma leb_not_nan_r (x y : float64) : (x <=? y)%f64 = true -> isnan y = false.
Proof. destruct x, y; cbn; congruence. Qed.

Lemma eqb_refl (x : float64) : isnan x = false -> (x == x)%f64 = true.
Proof.
  unfold eqb, SFeqb.
  destruct x as [s|s| |s m e]; cbn; try congruence; intros _.
  - destruct s; reflexivity.
  - destruct s; rewrite Z.compare_refl, Pos.compare_cont_refl; reflexivity.
Qed.

Lemma uniform_pdf_elem_number (y : float64) :
  isnan y = false -> uniform_pdf_elem y = one.
Proof.
  intros H. unfold uniform_pdf_elem. now rewrite (eqb_refl y H).
Qed.

End CompareFacts.

(** ** The numpy helpers *)

Section NumpyFacts.

Context {A B : Type}.

Lemma putmask_map (o : A -> B) (bad : A -> bool) (v : B) (l : list A) :
  putmask (map o l) (map bad l) v
  = map (fun y => if bad y then v else o y) l.
Proof.
  induction l as [|y l IH]; cbn [map putmask]; [reflexivity|].
  now rewrite IH.
Qed.

(** Placing the images of the selected elements: whatever [vals] is kept
    for repetition, every selected position receives the image of its own
    element. *)
Lemma place_from_map (o v : A -> B) (c : A -> bool) (vals : list B)
      (l : list A) :
  place_from (map o l) (map c l) vals (map v (extract (map c l) l))
  = ok (map (fun y => if c y then v y else o y) l).
Proof.
  induction l as [|y l IH]; cbn [map place_from extract]; [reflexivity|].
  destruct (c y); cbn [map]; rewrite IH; reflexivity.
Qed.

Lemma place_map (o v : A -> B) (c : A -> bool) (l : list A) :
  place (map o l) (map c l) (map v (extract (map c l) l))
  = ok (map (fun y => if c y then v y else o y) l).
Proof. apply place_from_map. Qed.

Lemma nothing_selected (o v : A -> B) (c : A -> bool) (l : list A) :
  existsb (fun b => b) (map c l) = false ->
  map o l = map (fun y => if c y then v y else o y) l.
Proof.
  induction l as [|y l IH]; cbn [map existsb]; [reflexivity|].
  intros H. apply orb_false_elim in H. destruct H as [Hy Hl].
  rewrite Hy, (IH Hl). reflexivity.
Qed.

Lemma place_from_length (arr : list B) :
  forall (mask : list bool) (vals cur r : list B),
    place_from arr mask vals cur = ok r -> length r = length arr.
Proof.
  induction arr as [|x arr IH]; intros mask vals cur r.
  - cbn. intros H. injection H as <-. reflexivity.
  - destruct mask as [|m mask].
    { cbn. intros H. injection H as <-. reflexivity. }
    cbn [place_from]. destruct m.
    + destruct cur as [|v cur'].
      * destruct vals as [|v cur']; [discriminate|].
        destruct (place_from arr mask (v :: cur') cur') as [e|r'] eqn:E;
          cbn; [discriminate|].
        intros H. injection H as <-. cbn. f_equal. eapply IH, E.
      * destruct (place_from arr mask vals cur') as [e|r'] eqn:E;
          cbn; [discriminate|].
        intros H. injection H as <-. cbn. f_equal. eapply IH, E.
    + destruct (place_from arr mask vals cur) as [e|r'] eqn:E;
        cbn; [discriminate|].
      intros H. injection H as <-. cbn. f_equal. eapply IH, E.
Qed.

Lemma putmask_length (arr : list B) :
  forall (mask : list bool) (v : B), length (putmask arr mask v) = length arr.
Proof.
  induction arr as [|x arr IH]; intros [|m mask] v; cbn; try reflexivity.
  now rewrite IH.
Qed.

(** [place] raises nothing but [ValueError]. *)
Lemma place_from_raises (arr : list B) :
  forall (mask : list bool) (vals cur : list B) (e : exn),
    place_from arr mask vals cur = raise e -> e = ValueError.
Proof.
  induction arr as [|x arr IH]; intros mask vals cur e.
  - cbn. discriminate.
  - destruct mask as [|m mask]; [cbn; discriminate|].
    cbn [place_from]. destruct m.
    + destruct cur as [|v cur'].
      * destruct vals as [|v cur'].
        { intros H. injection H as <-. reflexivity. }
        destruct (place_from arr mask (v :: cur') cur') as [e'|r'] eqn:E;
          cbn; [|discriminate].
        intros H. injection H as <-. eapply IH, E.
      * destruct (place_from arr mask vals cur') as [e'|r'] eqn:E;
          cbn; [|discriminate].
        intros H. injection H as <-. eapply IH, E.
    + destruct (place_from arr mask vals cur) as [e'|r'] eqn:E;
        cbn; [|discriminate].
      intros H. injection H as <-. eapply IH, E.
Qed.

End NumpyFacts.

Lemma broadcast_scalar_raises op r n s e :
  broadcast_scalar op r n s = raise e -> e = ValueError.
Proof.
  unfold broadcast_scalar.
  destruct (Nat.eqb (length r) n); [discriminate|].
  destruct (Nat.eqb (length r) 1); [discriminate|].
  destruct (Nat.eqb n 1); [discriminate|].
  intros H. injection H as <-. reflexivity.
Qed.

Lemma broadcast_scalar_map op (f : float64 -> float64) (l : list float64) s :
  broadcast_scalar op (map f l) (length l) s = ok (map (fun y => op (f y) s) l).
Proof.
  unfold broadcast_scalar. rewrite length_map, Nat.eqb_refl, map_map.
  reflexivity.
Qed.

Lemma astype_float64_float (l : list float64) :
  astype_float64 (FloatData l) = ok (astype_float64_of_float l).
Proof. reflexivity. Qed.

(** ** The distribution template, element by element *)

Section TemplateFacts.

Variable log : float64 -> float64.
Variable g : rv_continuous.
Variables loc scale : float64.

(** The body shared by [pdf] and [logpdf], from the masks to [place]. *)
Lemma template_pointwise (fill : float64) (op : float64 -> float64 -> float64)
      (s : float64) (f : float64 -> float64) (x : list float64) :
  let cond := map (andb (cond0 scale))
                  (map (fun y => _support_mask g y && (zero <? scale)%f64) x) in
  let output := putmask (map (fun _ => fill) cond)
                        (map (fun y => negb (cond0 scale) || isnan y) x)
                        badvalue in
  (if existsb (fun c => c) cond then
     (vals <- broadcast_scalar op (map f (extract cond x))
                               (length (extract cond x)) s ;;
      place output cond vals)%result
   else ok output)
  = ok (map (fun y => if selected g scale y then op (f y) s
                      else if unusable scale y then badvalue else fill) x).
Proof.
  intros cond output.
  assert (Hc : cond = map (selected g scale) x).
  { unfold cond. rewrite map_map. reflexivity. }
  assert (Ho : output
               = map (fun y => if unusable scale y then badvalue else fill) x).
  { unfold output. rewrite Hc, map_map. apply putmask_map. }
  rewrite Ho, Hc.
  destruct (existsb (fun c => c) (map (selected g scale) x)) eqn:E.
  - rewrite broadcast_scalar_map. cbn [rbind].
    apply (place_map (fun y => if unusable scale y then badvalue else fill)
                     (fun y => op (f y) s) (selected g scale) x).
  - f_equal.
    apply (nothing_selected
             (fun y => if unusable scale y then badvalue else fill)
             (fun y => op (f y) s) (selected g scale) x E).
Qed.

(** When [_pdf] acts on every element as [f], [pdf] is the element-wise
    map of [pdf_at]. *)
Lemma pdf_pointwise (f : float64 -> float64) (v : f64value) :
  (forall x, _pdf g x = map f x) ->
  pdf g loc scale v
  = ok (unwrap (fst (asarray v)) (map (pdf_at g loc scale f) (snd (asarray v)))).
Proof.
  intros Hf. unfold pdf. destruct (asarray v) as [sh xs]. cbn [fst snd].
  fold (cond0 scale). rewrite Hf.
  rewrite (template_pointwise zero div scale f (map (standardise loc scale) xs)).
  cbn [rbind]. rewrite map_map. reflexivity.
Qed.

Lemma logpdf_pointwise (f : float64 -> float64) (v : f64value) :
  (forall x, _logpdf log g x = map f x) ->
  logpdf log g loc scale v
  = ok (unwrap (fst (asarray v))
               (map (logpdf_at log g loc scale f) (snd (asarray v)))).
Proof.
  intros Hf. unfold logpdf. destruct (asarray v) as [sh xs]. cbn [fst snd].
  fold (cond0 scale). rewrite Hf.
  rewrite (template_pointwise ninf sub (log scale) f
                              (map (standardise loc scale) xs)).
  cbn [rbind]. rewrite map_map. reflexivity.
Qed.

End TemplateFacts.

(** ** The template on an arbitrary distribution *)

Section TemplateShape.

Variable log : float64 -> float64.

Lemma template_length (fill : float64) (op : float64 -> float64 -> float64)
      (s : float64) (vals : list float64) (n : nat) (cond : list bool)
      (bad : list bool) (out : list float64) :
  (if existsb (fun c => c) cond then
     (vals' <- broadcast_scalar op vals n s ;;
      place (putmask (map (fun _ => fill) cond) bad badvalue) cond vals')%result
   else ok (putmask (map (fun _ => fill) cond) bad badvalue)) = ok out ->
  length out = length cond.
Proof.
  destruct (existsb _ cond).
  - destruct (broadcast_scalar op vals n s) as [e|vals'];
      cbn [rbind]; [discriminate|].
    intros H. apply place_from_length in H.
    now rewrite H, putmask_length, length_map.
  - intros H. injection H as <-. now rewrite putmask_length, length_map.
Qed.

Lemma template_raises (fill : float64) (op : float64 -> float64 -> float64)
      (s : float64) (vals : list float64) (n : nat) (cond : list bool)
      (bad : list bool) (e : exn) :
  (if existsb (fun c => c) cond then
     (vals' <- broadcast_scalar op vals n s ;;
      place (putmask (map (fun _ => fill) cond) bad badvalue) cond vals')%result
   else ok (putmask (map (fun _ => fill) cond) bad badvalue)) = raise e ->
  e = ValueError.
Proof.
  destruct (existsb _ cond); [|discriminate].
  destruct (broadcast_scalar op vals n s) as [e'|vals'] eqn:E; cbn [rbind].
  - intros H. injection H as <-. eapply broadcast_scalar_raises, E.
  - apply place_from_raises.
Qed.

Lemma unwrap_same_shape (v : f64value) (out : list float64) :
  length out = length (snd (asarray v)) ->
  same_shape v (unwrap (fst (asarray v)) out).
Proof.
  unfold same_shape, unwrap. intros H.
  destruct (fst (asarray v)) as [|d sh]; eauto.
Qed.

(** Whatever the distribution, a result of [pdf] has the shape of the
    argument. *)
Lemma pdf_same_shape g loc scale v r :
  pdf g loc scale v = ok r -> same_shape v r.
Proof.
  unfold pdf. pose proof (unwrap_same_shape v) as U.
  destruct (asarray v) as [sh xs]. cbn [fst snd] in U.
  match goal with
  | |- rbind ?c _ = _ -> _ => destruct c as [e|out] eqn:E
  end; cbn [rbind]; [discriminate|].
  intros H. injection H as <-. apply U.
  apply template_length in E. now rewrite E, !length_map.
Qed.

Lemma logpdf_same_shape g loc scale v r :
  logpdf log g loc scale v = ok r -> same_shape v r.
Proof.
  unfold logpdf. pose proof (unwrap_same_shape v) as U.
  destruct (asarray v) as [sh xs]. cbn [fst snd] in U.
  match goal with
  | |- rbind ?c _ = _ -> _ => destruct c as [e|out] eqn:E
  end; cbn [rbind]; [discriminate|].
  intros H. injection H as <-. apply U.
  apply template_length in E. now rewrite E, !length_map.
Qed.

(** The template raises nothing but [ValueError]. *)
Lemma pdf_raises g loc scale v e :
  pdf g loc scale v = raise e -> e = ValueError.
Proof.
  unfold pdf. destruct (asarray v) as [sh xs].
  match goal with
  | |- rbind ?c _ = _ -> _ => destruct c as [e'|out] eqn:E
  end; cbn [rbind]; [|discriminate].
  intros H. injection H as <-. eapply template_raises, E.
Qed.

Lemma logpdf_raises g loc scale v e :
  logpdf log g loc scale v = raise e -> e = ValueError.
Proof.
  unfold logpdf. destruct (asarray v) as [sh xs].
  match goal with
  | |- rbind ?c _ = _ -> _ => destruct c as [e'|out] eqn:E
  end; cbn [rbind]; [|discriminate].
  intros H. injection H as <-. eapply template_raises, E.
Qed.

Lemma rv_pdf_same_shape r v out :
  rv_pdf r v = ok out -> same_shape v out.
Proof. destruct r; apply pdf_same_shape. Qed.

Lemma rv_logpdf_same_shape r v out :
  rv_logpdf log r v = ok out -> same_shape v out.
Proof. destruct r; apply logpdf_same_shape. Qed.

Lemma rv_pdf_raises r v e : rv_pdf r v = raise e -> e = ValueError.
Proof. destruct r; apply pdf_raises. Qed.

Lemma rv_logpdf_raises r v e : rv_logpdf log r v = raise e -> e = ValueError.
Proof. destruct r; apply logpdf_raises. Qed.

End TemplateShape.

(** ** The two distributions of the module *)

Section Distributions.

Variable log : float64 -> float64.

Lemma unnormed_pdf_pointwise (n : string) (lower upper : float64) (v : f64value) :
  Forall (fun x => valid x = true) (snd (asarray v)) ->
  rv_pdf (Generator (UniformUnnormedRV_generator n lower upper)) v
  = ok (unwrap (fst (asarray v))
               (map (unnormed_pdf_at lower upper) (snd (asarray v)))).
Proof.
  intros Hv. cbn [rv_pdf].
  rewrite (pdf_pointwise _ zero one (fun _ => one)) by reflexivity.
  do 2 f_equal. apply map_ext_in. intros x Hx.
  rewrite Forall_forall in Hv. specialize (Hv x Hx).
  unfold pdf_at, unnormed_pdf_at, selected, unusable.
  rewrite (standardise_identity x Hv).
  change (cond0 one) with true.
  cbn [andb negb orb _support_mask a b UniformUnnormedRV_generator].
  change (zero <? one)%f64 with true. rewrite andb_true_r.
  reflexivity.
Qed.

Lemma unnormed_logpdf_pointwise (n : string) (lower upper : float64)
      (v : f64value) :
  Forall (fun x => valid x = true) (snd (asarray v)) ->
  rv_logpdf log (Generator (UniformUnnormedRV_generator n lower upper)) v
  = ok (unwrap (fst (asarray v))
               (map (unnormed_logpdf_at log lower upper) (snd (asarray v)))).
Proof.
  intros Hv. cbn [rv_logpdf].
  rewrite (logpdf_pointwise log _ zero one (fun _ => zero)) by reflexivity.
  do 2 f_equal. apply map_ext_in. intros x Hx.
  rewrite Forall_forall in Hv. specialize (Hv x Hx).
  unfold logpdf_at, unnormed_logpdf_at, selected, unusable.
  rewrite (standardise_identity x Hv).
  change (cond0 one) with true.
  cbn [andb negb orb _support_mask a b UniformUnnormedRV_generator].
  change (zero <? one)%f64 with true. rewrite andb_true_r.
  reflexivity.
Qed.

Lemma uniform_pdf_pointwise (loc scale : float64) (v : f64value) :
  rv_pdf (Frozen uniform loc scale) v
  = ok (unwrap (fst (asarray v))
               (map (pdf_at uniform loc scale uniform_pdf_elem)
                    (snd (asarray v)))).
Proof. cbn [rv_pdf]. now apply pdf_pointwise. Qed.

Lemma uniform_logpdf_pointwise (loc scale : float64) (v : f64value) :
  rv_logpdf log (Frozen uniform loc scale) v
  = ok (unwrap (fst (asarray v))
               (map (logpdf_at log uniform loc scale
                               (fun y => log (uniform_pdf_elem y)))
                    (snd (asarray v)))).
Proof.
  cbn [rv_logpdf]. apply logpdf_pointwise. intros x.
  unfold _logpdf. cbn [_logpdf_override uniform _pdf].
  now rewrite map_map.
Qed.

End Distributions.

(** ** Prior: the cast and the delegation *)

Section PriorFacts.

Variable log : float64 -> float64.

Lemma pdf_unfold (value : pyobject) (p : Prior.t) :
  Prior.pdf value p = (rbind (Prior.cast value) (rv_pdf (Prior._rv p)), p).
Proof.
  unfold Prior.pdf, mbind, lift, getattr.
  destruct (Prior.cast value); reflexivity.
Qed.

Lemma logpdf_unfold (value : pyobject) (p : Prior.t) :
  Prior.logpdf log value p
  = (rbind (Prior.cast value) (rv_logpdf log (Prior._rv p)), p).
Proof.
  unfold Prior.logpdf, mbind, lift, getattr.
  destruct (Prior.cast value); reflexivity.
Qed.

Lemma float_of_int_raises (n : Z) (e : exn) :
  float_of_int n = raise e -> e = OverflowError.
Proof.
  unfold float_of_int. destruct (is_finite (of_Z n)); [discriminate|].
  intros H. now injection H as <-.
Qed.

Lemma array_float_refuses (arr : ndarray) :
  size (buffer arr) <> 1%nat -> array_float arr = raise TypeError.
Proof.
  unfold array_float.
  destruct (buffer arr) as [l|l|l|l|l]; cbn [size];
    destruct l as [|x [|y l]]; cbn [length]; intros H;
    try reflexivity; now destruct H.
Qed.

(** On Python numbers and ndarrays the cast raises [TypeError] exactly for
    the kinds above the floating kind.  A numpy complex scalar is of such
    a kind and is not refused (see [numpy_complex_scalar_as_real_part]). *)
Lemma cast_TypeError (value : pyobject) :
  input_kind value <> None ->
  (forall re im, value <> NpComplex re im) ->
  (Prior.cast value = raise TypeError <-> ~ castable_to_float value).
Proof.
  intros Hk Hc. unfold castable_to_float.
  destruct value as [b|n|x|re im|l|l|arr|arr|re im|str parsed|conv];
    cbn in Hk |- *; try congruence.
  - split; [discriminate|intros H; exfalso; apply H; lia].
  - split.
    + destruct (float_of_int n) as [e|x] eqn:E; cbn; [|discriminate].
      intros H. injection H as ->.
      apply float_of_int_raises in E. discriminate.
    + intros H; exfalso; apply H; lia.
  - split; [discriminate|intros H; exfalso; apply H; lia].
  - split; [intros _; lia|reflexivity].
  - unfold astype_float64, can_cast_same_kind.
    destruct (buffer arr) as [l|l|l|l|l]; cbn;
      (split; [try discriminate; intros _; lia
              |try reflexivity; intros H; exfalso; apply H; lia]).
  - now destruct (Hc re im).
Qed.

Lemma do_call_state (c : call) (p : Prior.t) : snd (do_call log c p) = p.
Proof.
  destruct c; cbn [do_call]; [rewrite pdf_unfold|rewrite logpdf_unfold];
    reflexivity.
Qed.

Lemma run_state (cs : list call) (p : Prior.t) : snd (run log cs p) = p.
Proof.
  revert p. induction cs as [|c cs IH]; intros p; cbn [run]; [reflexivity|].
  pose proof (do_call_state c p) as Hc.
  destruct (do_call log c p) as [r p']. cbn [snd] in Hc. subst p'.
  specialize (IH p). destruct (run log cs p) as [rs p'']. exact IH.
Qed.

End PriorFacts.

(** ** The logarithm of the density (supporting facts) *)



(** Malformed bounds are not an error: when upper - lower is not positive
    every evaluation of the bounded distribution yields NaN. *)
Lemma UniformBoundedRV_malformed_nan (lower upper x : float64) :
  (zero <? upper - lower)%f64 = false ->
  pdf_of (UniformBoundedRV lower upper) (Scalar x) = ok (Scalar nan).
Proof.
  intros Hs. unfold pdf_of, UniformBoundedRV, uniform_call.
  cbn [rbind ok]. rewrite uniform_pdf_pointwise.
  cbn [asarray fst snd unwrap map hd].
  unfold pdf_at, selected, unusable, cond0, _argcheck.
  rewrite Hs. reflexivity.
Qed.

(** The two cases of the bounded density, given a positive scale. *)
Lemma pdf_standardised_cases (lower upper x : float64) :
  (zero <? upper - lower)%f64 = true ->
  let y := ((x - lower) / (upper - lower))%f64 in
  ((zero <=? y)%f64 = true /\ (y <=? one)%f64 = true ->
   pdf_of (UniformBoundedRV lower upper) (Scalar x)
   = ok (Scalar (one / (upper - lower))%f64))
  /\ ((y <? zero)%f64 = true \/ (one <? y)%f64 = true ->
      pdf_of (UniformBoundedRV lower upper) (Scalar x) = ok (Scalar zero)).
Proof.
  intros Hs y.
  unfold pdf_of, UniformBoundedRV, uniform_call.
  cbn [rbind ok]. rewrite uniform_pdf_pointwise.
  cbn [asarray fst snd unwrap map hd].
  unfold pdf_at, selected, unusable, cond0, standardise, _support_mask, _argcheck.
  cbn [a b uniform]. fold y. rewrite Hs. cbn [andb negb orb].
  split.
  - intros [H1 H2]. rewrite H1, H2. cbn [andb].
    now rewrite (uniform_pdf_elem_number y (leb_not_nan_r _ _ H1)).
  - intros [H|H].
    + rewrite (ltb_leb_false _ _ H), (ltb_not_nan_l _ _ H). reflexivity.
    + rewrite (ltb_leb_false _ _ H), (ltb_not_nan_r _ _ H), andb_false_r.
      reflexivity.
Qed.


(** Whatever the logarithm, as long as log(+inf) is +inf and the
    logarithm of the scale is finite: where the bounded density overflows
    to +inf, [logpdf] is finite and differs from the logarithm of the
    density. *)
Lemma finite_logpdf_of_infinite_pdf (log : float64 -> float64)
      (scale : float64) :
  log one = zero -> log inf = inf -> is_finite (log scale) = true ->
  (one / scale)%f64 = inf ->
  (log one - log scale)%f64 <> log (one / scale)%f64.
Proof.
  intros H1 Hinf Hfin Hdiv. rewrite Hdiv, Hinf, H1.
  destruct (log scale) as [s|s| |s m e]; try discriminate; destruct s;
    discriminate.
Qed.

(* ===================================================================== *)
(** * The claims                                                          *)
(* ===================================================================== *)

(** C1: for lower < upper, the distribution returned by
    UniformUnnormedRV(lower, upper) has pdf(x) == 1.0 for every x with
    lower <= x <= upper and pdf(x) == 0.0 for every x below lower or
    above upper. *)
Theorem UniformUnnormedRV_pdf_unity (lower upper x : float64) :
  valid x = true ->
  (lower <? upper)%f64 = true ->
  ((lower <=? x)%f64 = true /\ (x <=? upper)%f64 = true ->
   pdf_of (UniformUnnormedRV lower upper) (Scalar x) = ok (Scalar one))
  /\ ((x <? lower)%f64 = true \/ (upper <? x)%f64 = true ->
      pdf_of (UniformUnnormedRV lower upper) (Scalar x) = ok (Scalar zero)).
Proof.
  intros Hx _. unfold pdf_of, UniformUnnormedRV. cbn [rbind ok].
  rewrite unnormed_pdf_pointwise by (cbn; auto).
  cbn [asarray fst snd unwrap map hd]. unfold unnormed_pdf_at.
  split.
  - intros [H1 H2]. now rewrite H1, H2.
  - intros [H|H].
    + rewrite (ltb_leb_false _ _ H), (ltb_not_nan_l _ _ H). reflexivity.
    + rewrite (ltb_leb_false _ _ H), (ltb_not_nan_r _ _ H), andb_false_r.
      reflexivity.
Qed.

(** The half-bounded scenario: UniformUnnormedRV(lower=0.0) wrapped in a
    Prior gives pdf(-1.0) == 0.0 and pdf(5.0) == 1.0. *)
Lemma UniformUnnormedRV_pdf_unity_witness :
  let rv := Generator (UniformUnnormedRV_generator "unnormed_uniform" zero inf) in
  UniformUnnormedRV_kw (Some zero) None = ok rv
  /\ fst (Prior.pdf (PyFloat Lit.minus_one) (Prior.__init__ rv)) = ok (Scalar zero)
  /\ fst (Prior.pdf (PyFloat Lit.five) (Prior.__init__ rv)) = ok (Scalar one).
Proof.
  split; [reflexivity|]. split.
  - apply (proj2 (UniformUnnormedRV_pdf_unity zero inf Lit.minus_one
                    eq_refl eq_refl)).
    left. reflexivity.
  - apply (proj1 (UniformUnnormedRV_pdf_unity zero inf Lit.five
                    eq_refl eq_refl)).
    split; reflexivity.
Defined.

(** What UniformBoundedRV computes: for lower < upper, with
    y = (x - lower) / (upper - lower) the standardised point as computed
    in double precision, the distribution returned by
    UniformBoundedRV(lower, upper) has pdf(x) == 1/(upper-lower) when
    0 <= y <= 1 and pdf(x) == 0.0 when y < 0 or y > 1.  The interval is
    tested on y, not on x. *)
Lemma UniformBoundedRV_pdf_standardised (lower upper x : float64) :
  valid lower = true ->
  valid upper = true ->
  (lower <? upper)%f64 = true ->
  let y := ((x - lower) / (upper - lower))%f64 in
  ((zero <=? y)%f64 = true /\ (y <=? one)%f64 = true ->
   pdf_of (UniformBoundedRV lower upper) (Scalar x)
   = ok (Scalar (one / (upper - lower))%f64))
  /\ ((y <? zero)%f64 = true \/ (one <? y)%f64 = true ->
      pdf_of (UniformBoundedRV lower upper) (Scalar x) = ok (Scalar zero)).
Proof.
  intros Vl Vu Hlt y.
  pose proof (sub_positive lower upper Vl Vu Hlt) as Hs.
  destruct (pdf_standardised_cases lower upper x Hs) as [Hin Hout].
  split.
  - intros H. now apply Hin.
  - intros H. now apply Hout.
Qed.

(** The scenario UniformBoundedRV(0.0, 1.0) wrapped in a Prior:
    pdf(0.5) == 1.0 and pdf(1.5) == 0.0. *)
Lemma UniformBoundedRV_pdf_standardised_witness :
  let rv := Frozen uniform zero one in
  UniformBoundedRV_kw None None = ok rv
  /\ fst (Prior.pdf (PyFloat Lit.half) (Prior.__init__ rv)) = ok (Scalar one)
  /\ fst (Prior.pdf (PyFloat Lit.one_and_half) (Prior.__init__ rv))
     = ok (Scalar zero).
Proof.
  split; [reflexivity|]. split.
  - apply (proj1 (UniformBoundedRV_pdf_standardised zero one Lit.half
                    eq_refl eq_refl eq_refl)).
    split; reflexivity.
  - apply (proj2 (UniformBoundedRV_pdf_standardised zero one Lit.one_and_half
                    eq_refl eq_refl eq_refl)).
    right. reflexivity.
Defined.

(** C2: UniformBoundedRV(-1.0, 1.0).pdf(1.0000000000000002) is 0.5 and
    not 0.0, although the point lies above upper.  The difference
    x - lower rounds to 2.0, which is upper - lower, so the standardised
    point is 1.0, the end of the support of scipy's uniform, and the
    density returned is 1/(upper-lower).  The docstring of
    UniformBoundedRV promises 0.0 outside [lower, upper], and
    UniformUnnormedRV, which compares x itself with its bounds, returns
    0.0 at the same point with the same bounds. *)
Theorem UniformBoundedRV_pdf_outside_nonzero :
  let lower := Lit.minus_one in
  let upper := one in
  let x := Lit.one_plus_ulp in
  (lower <? upper)%f64 = true
  /\ (upper <? x)%f64 = true
  /\ standardise lower (upper - lower)%f64 x = one
  /\ pdf_of (UniformBoundedRV lower upper) (Scalar x) = ok (Scalar Lit.half)
  /\ pdf_of (UniformBoundedRV lower upper) (Scalar x) <> ok (Scalar zero)
  /\ pdf_of (UniformUnnormedRV lower upper) (Scalar x) = ok (Scalar zero).
Proof.
  cbv zeta. repeat split; try reflexivity.
  vm_compute. discriminate.
Qed.




(** The cast and the delegation on Python numbers and ndarrays: pdf and
    logpdf first coerce their input to double precision and then
    delegate; a failed cast is what the caller gets, and the cast error
    (TypeError) is raised exactly when the input is not castable to
    floating point of the same kind.  Numpy complex scalars are left out:
    they are the subject of the next theorem. *)
Lemma Prior_cast_then_delegate (log : float64 -> float64) (p : Prior.t)
      (value : pyobject) :
  input_kind value <> None ->
  (forall re im, value <> NpComplex re im) ->
  (forall v, Prior.cast value = ok v ->
             Prior.pdf value p = (rv_pdf (Prior._rv p) v, p)
             /\ Prior.logpdf log value p = (rv_logpdf log (Prior._rv p) v, p))
  /\ (forall e, Prior.cast value = raise e ->
                Prior.pdf value p = (raise e, p)
                /\ Prior.logpdf log value p = (raise e, p))
  /\ (fst (Prior.pdf value p) = raise TypeError <-> ~ castable_to_float value)
  /\ (fst (Prior.logpdf log value p) = raise TypeError
      <-> ~ castable_to_float value).
Proof.
  intros Hk Hc. rewrite pdf_unfold, (logpdf_unfold log). cbn [fst].
  repeat split.
  - rewrite H. reflexivity.
  - rewrite H. reflexivity.
  - rewrite H. reflexivity.
  - rewrite H. reflexivity.
  - intros H. apply (cast_TypeError value Hk Hc).
    destruct (Prior.cast value) as [e|v]; cbn [rbind] in H; [exact H|].
    apply rv_pdf_raises in H. discriminate.
  - intros H. apply (cast_TypeError value Hk Hc) in H. now rewrite H.
  - intros H. apply (cast_TypeError value Hk Hc).
    destruct (Prior.cast value) as [e|v]; cbn [rbind] in H; [exact H|].
    apply rv_logpdf_raises in H. discriminate.
  - intros H. apply (cast_TypeError value Hk Hc) in H. now rewrite H.
Qed.

(** Whatever its imaginary part, a numpy complex scalar is evaluated as
    its real part, while a Python complex and a complex array are refused
    with TypeError. *)
Lemma numpy_complex_scalar_as_real_part (log : float64 -> float64)
      (p : Prior.t) (re im : float64) :
  (Prior.pdf (NpComplex re im) p = Prior.pdf (PyFloat re) p
   /\ Prior.logpdf log (NpComplex re im) p = Prior.logpdf log (PyFloat re) p)
  /\ (fst (Prior.pdf (PyComplex re im) p) = raise TypeError
      /\ fst (Prior.logpdf log (PyComplex re im) p) = raise TypeError)
  /\ (forall sh l,
        fst (Prior.pdf (NdArray {| shape := sh; buffer := ComplexData l |}) p)
        = raise TypeError
        /\ fst (Prior.logpdf log
                  (NdArray {| shape := sh; buffer := ComplexData l |}) p)
           = raise TypeError).
Proof.
  rewrite !pdf_unfold, !(logpdf_unfold log).
  repeat split; reflexivity.
Qed.

(** C4: the complex scalar numpy.complex128(0.5+1j) is not rejected by a
    Prior backed by UniformBoundedRV(0, 1): float() keeps its real part,
    warning that the imaginary part is discarded, and pdf returns 1.0,
    the density at 0.5, and logpdf 0.0 (with log(1.0) = 0.0), leaving the
    Prior as it was.  On the array path the same number is rejected: the
    complex array [0.5+1j] raises TypeError under casting='same_kind', as
    does the Python complex 0.5+1j in float(). *)
Theorem numpy_complex_scalar_is_not_rejected :
  let p := Prior.__init__ (Frozen uniform zero one) in
  fst (Prior.pdf (NpComplex Lit.half one) p) = ok (Scalar one)
  /\ fst (Prior.logpdf log_binade (NpComplex Lit.half one) p) = ok (Scalar zero)
  /\ snd (Prior.pdf (NpComplex Lit.half one) p) = p
  /\ fst (Prior.pdf (PyComplex Lit.half one) p) = raise TypeError
  /\ fst (Prior.pdf
            (NdArray {| shape := [1%nat];
                        buffer := ComplexData [(Lit.half, one)] |}) p)
     = raise TypeError.
Proof.
  cbv zeta. rewrite !pdf_unfold, (logpdf_unfold log_binade). cbn [fst snd].
  repeat split; vm_compute; reflexivity.
Qed.

(** C5: pdf and logpdf preserve shape: whatever they return for an input
    that is not an array is a scalar, and what they return for an array of
    length N is an array of the same shape, hence of length N, with as
    many elements as the input. *)
Theorem Prior_preserves_shape (log : float64 -> float64) (p : Prior.t)
        (value : pyobject) (r : f64value) :
  fst (Prior.pdf value p) = ok r \/ fst (Prior.logpdf log value p) = ok r ->
  ((forall arr, value <> NdArray arr) -> exists y, r = Scalar y)
  /\ (forall arr N rest,
        value = NdArray arr -> shape arr = N :: rest ->
        exists data, r = Array (N :: rest) data
                     /\ length data = size (buffer arr)).
Proof.
  rewrite pdf_unfold, (logpdf_unfold log). cbn [fst]. intros H.
  assert (Hs : exists v, Prior.cast value = ok v /\ same_shape v r).
  { destruct (Prior.cast value) as [e|v]; cbn [rbind] in H.
    - destruct H; discriminate.
    - exists v. split; [reflexivity|].
      destruct H as [H|H].
      + eapply rv_pdf_same_shape, H.
      + eapply rv_logpdf_same_shape, H. }
  destruct Hs as (v & Hc & Hs). split.
  - intros Hn. unfold Prior.cast in Hc.
    destruct value as [b|n|x|re im|l|l|arr|arr|re im|str parsed|conv];
      try (destruct (np_float _) as [e|y]; cbn [rbind] in Hc;
           [discriminate|]; injection Hc as <-; exact Hs).
    now destruct (Hn arr).
  - intros arr N rest -> Hsh. cbn [Prior.cast] in Hc.
    unfold astype_float64 in Hc.
    destruct (can_cast_same_kind _ _); [|discriminate].
    assert (exists data, v = Array (shape arr) data
                         /\ length data = size (buffer arr)) as (data & -> & Hl).
    { destruct (buffer arr) as [l|l|l|l|l]; cbn [rbind ok] in Hc;
        injection Hc as <-; eexists; split; try reflexivity;
        cbn [size]; now rewrite ?length_map. }
    unfold same_shape in Hs. cbn [asarray fst snd] in Hs. rewrite Hsh in Hs.
    destruct Hs as (out & -> & Ho). exists out. split; [reflexivity|].
    now rewrite Ho.
Qed.

(** The array scenario: [0.2, 0.8, 1.2] through a Prior backed by
    UniformBoundedRV(0, 1) gives [1.0, 1.0, 0.0]; a scalar gives a scalar. *)
Lemma Prior_preserves_shape_witness :
  let p := Prior.__init__ (Frozen uniform zero one) in
  let value := NdArray {| shape := [3%nat];
                          buffer := FloatData [Lit.d0_2; Lit.d0_8; Lit.d1_2] |} in
  fst (Prior.pdf value p) = ok (Array [3%nat] [one; one; zero])
  /\ (exists data,
        Array [3%nat] [one; one; zero] = Array [3%nat] data
        /\ length data = 3%nat)
  /\ (exists y, Scalar one = Scalar y).
Proof.
  intros p value.
  assert (H : fst (Prior.pdf value p) = ok (Array [3%nat] [one; one; zero]))
    by reflexivity.
  split; [exact H|]. split.
  - exact (proj2 (Prior_preserves_shape log_binade p value _ (or_introl H))
                 _ 3%nat [] eq_refl eq_refl).
  - refine (proj1 (Prior_preserves_shape log_binade p (PyFloat Lit.half)
                     (Scalar one) (or_introl eq_refl)) _).
    intros arr. discriminate.
Defined.

(** C6: for lower < upper and lower <= x <= upper, the distribution
    returned by UniformUnnormedRV(lower, upper) has logpdf(x) == 0.0. *)
Theorem UniformUnnormedRV_logpdf_zero (log : float64 -> float64)
        (lower upper x : float64) :
  log one = zero ->
  valid x = true ->
  (lower <? upper)%f64 = true ->
  (lower <=? x)%f64 = true ->
  (x <=? upper)%f64 = true ->
  logpdf_of log (UniformUnnormedRV lower upper) (Scalar x) = ok (Scalar zero).
Proof.
  intros Hlog Hx _ H1 H2. unfold logpdf_of, UniformUnnormedRV. cbn [rbind ok].
  rewrite unnormed_logpdf_pointwise by (cbn; auto).
  cbn [asarray fst snd unwrap map hd]. unfold unnormed_logpdf_at.
  now rewrite H1, H2, Hlog.
Qed.

(** The half-bounded scenario: logpdf(5.0) == 0.0 for
    UniformUnnormedRV(lower=0.0). *)
Lemma UniformUnnormedRV_logpdf_zero_witness :
  logpdf_of log_binade (UniformUnnormedRV_kw (Some zero) None) (Scalar Lit.five)
  = ok (Scalar zero).
Proof.
  apply (UniformUnnormedRV_logpdf_zero log_binade zero inf Lit.five);
    reflexivity.
Defined.

(** C7: neither factory checks its bounds or raises: for every lower and
    upper, in whatever order, each returns normally and hands the bounds
    unchanged to the distribution constructor. *)
Theorem factories_do_not_validate (lower upper : float64) :
  (exists g, UniformUnnormedRV lower upper = ok (Generator g)
             /\ a g = lower /\ b g = upper)
  /\ UniformBoundedRV lower upper = uniform_call lower (upper - lower)%f64
  /\ uniform_call lower (upper - lower)%f64
     = ok (Frozen uniform lower (upper - lower)%f64).
Proof.
  split; [|split; reflexivity].
  eexists. split; [reflexivity|]. split; reflexivity.
Qed.

(** C8: pdf and logpdf are pure: a call leaves the Prior as it was, after
    any run of calls the Prior still holds the distribution given at
    construction, and a call returns the same result after any run of
    earlier calls as on the fresh object. *)
Theorem Prior_methods_pure (log : float64 -> float64) (rv : Scipy.rv)
        (cs : list call) (c : call) :
  let p := Prior.__init__ rv in
  snd (do_call log c p) = p
  /\ snd (run log cs p) = p
  /\ Prior._rv (snd (run log cs p)) = rv
  /\ fst (do_call log c (snd (run log cs p))) = fst (do_call log c p)
  /\ fst (do_call log c (snd (do_call log c p))) = fst (do_call log c p).
Proof.
  intros p. rewrite do_call_state, run_state. repeat split; reflexivity.
Qed.

(** C9, as the code has it: only a value whose type is exactly
    numpy.ndarray takes the array path; every other value goes through
    float(), and there a list, a tuple or an ndarray-subclass instance
    that does not hold exactly one element raises TypeError. *)
Theorem dispatch_is_exact_type_test (log : float64 -> float64) (p : Prior.t)
        (value : pyobject) :
  (forall arr, value <> NdArray arr) ->
  Prior.cast value = (x <- np_float value ;; ok (Scalar x))%result
  /\ (refused_sequence value ->
      fst (Prior.pdf value p) = raise TypeError
      /\ fst (Prior.logpdf log value p) = raise TypeError).
Proof.
  intros Hn. split.
  - destruct value; try reflexivity. now destruct (Hn arr).
  - rewrite pdf_unfold, (logpdf_unfold log). cbn [fst].
    intros [l|l|arr Hs]; cbn [Prior.cast np_float rbind];
      try (split; reflexivity).
    rewrite (array_float_refuses arr Hs). split; reflexivity.
Qed.

(** A list and a two-element subclass instance are refused. *)
Lemma dispatch_is_exact_type_test_witness :
  let p := Prior.__init__ (Frozen uniform zero one) in
  fst (Prior.pdf (PyList [PyFloat Lit.d0_2; PyFloat Lit.d0_8]) p) = raise TypeError
  /\ fst (Prior.logpdf log_binade
            (NdSubclass {| shape := [2%nat];
                           buffer := FloatData [Lit.d0_2; Lit.d0_8] |}) p)
     = raise TypeError.
Proof.
  intros p. split.
  - refine (proj1 (proj2 (dispatch_is_exact_type_test log_binade p
                            (PyList [PyFloat Lit.d0_2; PyFloat Lit.d0_8]) _) _)).
    + intros arr. discriminate.
    + constructor.
  - refine (proj2 (proj2 (dispatch_is_exact_type_test log_binade p
                            (NdSubclass {| shape := [2%nat];
                                           buffer := FloatData [Lit.d0_2; Lit.d0_8] |})
                            _) _)).
    + intros arr. discriminate.
    + constructor. cbn. discriminate.
Defined.

(** C9 fails as stated: an instance of an ndarray subclass that holds one
    element, such as numpy.matrix([[0.5]]), goes through float() and is
    evaluated as the scalar 0.5; no TypeError is raised. *)
Lemma single_element_subclass_is_converted :
  let p := Prior.__init__ (Frozen uniform zero one) in
  let value := NdSubclass {| shape := [1%nat; 1%nat];
                             buffer := FloatData [Lit.half] |} in
  fst (Prior.pdf value p) = ok (Scalar one)
  /\ fst (Prior.pdf value p) <> raise TypeError.
Proof.
  cbv zeta. split; [reflexivity|].
  rewrite pdf_unfold. cbn. discriminate.
Qed.

(** C10, as the code has it: an integer scalar whose nearest double is
    finite, which every integer of magnitude below 2^1023 is, is converted
    and evaluated as that double; an array of integer dtype is cast
    element by element and evaluated as the float64 array. *)
Theorem integer_inputs_are_converted (log : float64 -> float64) (p : Prior.t) :
  (forall n : Z,
     is_finite (of_Z n) = true ->
     Prior.pdf (PyInt n) p = (rv_pdf (Prior._rv p) (Scalar (of_Z n)), p)
     /\ Prior.logpdf log (PyInt n) p
        = (rv_logpdf log (Prior._rv p) (Scalar (of_Z n)), p))
  /\ (forall n : Z, Z.abs n < 2 ^ 1023 -> is_finite (of_Z n) = true)
  /\ (forall (sh : list nat) (l : list Z),
        let value := NdArray {| shape := sh; buffer := IntData l |} in
        Prior.pdf value p = (rv_pdf (Prior._rv p) (Array sh (map of_Z l)), p)
        /\ Prior.logpdf log value p
           = (rv_logpdf log (Prior._rv p) (Array sh (map of_Z l)), p))
  /\ (forall (sh : list nat) (l : list N),
        let value := NdArray {| shape := sh; buffer := UIntData l |} in
        Prior.pdf value p
        = (rv_pdf (Prior._rv p)
                  (Array sh (map (fun n => of_Z (Z.of_N n)) l)), p)
        /\ Prior.logpdf log value p
           = (rv_logpdf log (Prior._rv p)
                        (Array sh (map (fun n => of_Z (Z.of_N n)) l)), p)).
Proof.
  split; [|split; [exact of_Z_finite|]].
  - intros n H. rewrite pdf_unfold, (logpdf_unfold log).
    cbn [Prior.cast np_float]. unfold float_of_int. rewrite H.
    split; reflexivity.
  - split; intros sh l value; subst value;
      rewrite pdf_unfold, (logpdf_unfold log); split; reflexivity.
Qed.

(** The integers 1 and 2 through a Prior backed by UniformBoundedRV(0, 1). *)
Lemma integer_inputs_are_converted_witness :
  let p := Prior.__init__ (Frozen uniform zero one) in
  fst (Prior.pdf (PyInt 1) p) = ok (Scalar one)
  /\ fst (Prior.pdf (PyInt 2) p) = ok (Scalar zero)
  /\ is_finite (of_Z (-9223372036854775808)) = true.
Proof.
  intros p. split; [|split].
  - exact (f_equal fst
             (proj1 (proj1 (integer_inputs_are_converted log_binade p) 1 eq_refl))).
  - exact (f_equal fst
             (proj1 (proj1 (integer_inputs_are_converted log_binade p) 2 eq_refl))).
  - apply (proj1 (proj2 (integer_inputs_are_converted log_binade p))).
    apply Z.ltb_lt. vm_compute. reflexivity.
Defined.

(** C10 fails as stated: the integer 2^1024 is an integer scalar, and
    float() refuses it with OverflowError. *)
Lemma huge_integer_overflows :
  let p := Prior.__init__ (Frozen uniform zero one) in
  fst (Prior.pdf (PyInt (2 ^ 1024)) p) = raise OverflowError
  /\ fst (Prior.logpdf log_binade (PyInt (2 ^ 1024)) p) = raise OverflowError.
Proof.
  cbv zeta. rewrite pdf_unfold, (logpdf_unfold log_binade).
  split; vm_compute; reflexivity.
Qed.

(* ===================================================================== *)
(** * Part III: further properties                                        *)
(* ===================================================================== *)

(** ** Order and differences of binary64 numbers *)

Lemma leb_trans (x y z : float64) :
  (x <=? y)%f64 = true -> (y <=? z)%f64 = true -> (x <=? z)%f64 = true.
Proof.
  unfold leb, SFleb.
  destruct x as [sx|sx| |sx mx ex], y as [sy|sy| |sy my ey],
           z as [sz|sz| |sz mz ez]; cbn [SFcompare];
    try discriminate; try reflexivity;
    try (destruct sx; try discriminate; try reflexivity;
         destruct sy; try discriminate; try reflexivity;
         destruct sz; try discriminate; reflexivity);
    try (destruct sx; try discriminate; try reflexivity;
         destruct sz; try discriminate; try reflexivity;
         destruct sy; try discriminate; reflexivity);
    try (destruct sy; try discriminate; try reflexivity;
         destruct sz; try discriminate; try reflexivity;
         destruct sx; try discriminate; reflexivity).
  all: repeat match goal with
         | |- context [Pos.compare_cont Eq ?p ?q] =>
             change (Pos.compare_cont Eq p q) with (Pos.compare p q)
         end.
  all: destruct sx, sy, sz; try discriminate; try reflexivity.
  all: destruct (Z.compare_spec ex ey), (Z.compare_spec ey ez),
         (Z.compare_spec ex ez); try discriminate; try reflexivity; try lia.
  all: destruct (Pos.compare_spec mx my), (Pos.compare_spec my mz),
         (Pos.compare_spec mx mz); cbn; try discriminate; try reflexivity; try lia.
Qed.

Lemma ltb_leb (x y : float64) : (x <? y)%f64 = true -> (x <=? y)%f64 = true.
Proof.
  unfold ltb, leb, SFltb, SFleb. destruct (SFcompare x y) as [[| |]|]; congruence.
Qed.

Lemma ltb_asym (x y : float64) : (x <? y)%f64 = true -> (y <? x)%f64 = false.
Proof.
  intros H. apply ltb_leb_false in H. revert H.
  unfold ltb, leb, SFltb, SFleb. destruct (SFcompare y x) as [[| |]|]; congruence.
Qed.

(** The aligned mantissas of two canonical numbers compare as the numbers. *)
Lemma aligned_order (sa sb : bool) (ma mb : positive) (ea eb : Z) :
  canonical_mantissa prec emax ma ea = true ->
  canonical_mantissa prec emax mb eb = true ->
  SFltb (S754_finite sa ma ea) (S754_finite sb mb eb) = true ->
  cond_Zopp sa (Zpos (fst (shl_align ma ea (Z.min ea eb))))
  < cond_Zopp sb (Zpos (fst (shl_align mb eb (Z.min ea eb)))).
Proof.
  intros Va Vb. unfold SFltb. cbn [SFcompare]. intros H.
  destruct (Z.compare_spec ea eb) as [Heq|Hlt|Hgt].
  - subst eb. rewrite Z.min_id.
    rewrite !shl_align_value, Z.sub_diag by lia. change (2 ^ 0) with 1.
    change (Pos.compare_cont Eq ma mb) with (Pos.compare ma mb) in H.
    destruct sa, sb; cbn [cond_Zopp]; try discriminate; try lia;
      destruct (Pos.compare_spec ma mb); try discriminate; lia.
  - rewrite (Z.min_l ea eb) by lia.
    rewrite !shl_align_value by lia.
    pose proof (aligned_lt ma mb ea eb Va Vb Hlt) as A.
    destruct sa, sb; cbn [cond_Zopp]; try discriminate; lia.
  - rewrite (Z.min_r ea eb) by lia.
    rewrite !shl_align_value by lia.
    pose proof (aligned_lt mb ma eb ea Vb Va Hgt) as A.
    destruct sa, sb; cbn [cond_Zopp]; try discriminate; lia.
Qed.

Lemma negative_rounds_negative (n ez : Z) :
  n < 0 -> -1074 <= ez ->
  (binary_normalize prec emax n ez false <? zero)%f64 = true.
Proof.
  intros Hn He. destruct n as [|p|p]; try lia. cbn [binary_normalize].
  pose proof (binary_round_shape true p ez He) as H.
  destruct (binary_round prec emax true p ez) as [s|s| |s m e];
    cbn in H; try contradiction.
  - destruct H as [-> _]. reflexivity.
  - subst s. reflexivity.
Qed.

(** The difference of two binary64 numbers in strict order, taken the
    other way round, is negative. *)
Lemma sub_negative (a b : float64) :
  valid a = true -> valid b = true ->
  (a <? b)%f64 = true -> (a - b <? zero)%f64 = true.
Proof.
  destruct a as [sa|sa| |sa ma ea], b as [sb|sb| |sb mb eb];
    cbn [valid valid_binary]; intros Va Vb;
    try (destruct sa, sb; cbn; congruence);
    try (destruct sa; cbn; congruence);
    try (destruct sb; cbn; congruence);
    try (cbn; congruence).
  apply bounded_canonical in Va, Vb.
  pose proof (canonical_exponent _ _ Va) as Ea.
  pose proof (canonical_exponent _ _ Vb) as Eb.
  intros H. pose proof (aligned_order sa sb ma mb ea eb Va Vb H) as A.
  unfold sub, SFsub. apply negative_rounds_negative; lia.
Qed.

(** Two binary64 numbers that compare equal have no positive difference. *)
Lemma sub_of_equal (a b : float64) :
  SFcompare a b = Some Eq -> (zero <? a - b)%f64 = false.
Proof.
  destruct a as [sa|sa| |sa ma ea], b as [sb|sb| |sb mb eb]; cbn [SFcompare];
    try discriminate;
    try (destruct sa, sb; cbn; congruence);
    try (destruct sa; cbn; congruence);
    try (destruct sb; cbn; congruence).
  change (Pos.compare_cont Eq ma mb) with (Pos.compare ma mb).
  intros H.
  assert (E : sa = sb /\ ea = eb /\ ma = mb).
  { destruct sa, sb; try discriminate;
      destruct (Z.compare_spec ea eb); try discriminate;
      destruct (Pos.compare_spec ma mb); try discriminate; auto. }
  destruct E as (-> & -> & ->).
  unfold sub, SFsub. rewrite Z.sub_diag. reflexivity.
Qed.

Lemma sub_not_positive (a b : float64) :
  valid a = true -> valid b = true ->
  (a <=? b)%f64 = true -> (zero <? a - b)%f64 = false.
Proof.
  intros Va Vb H.
  destruct (SFcompare a b) as [[| |]|] eqn:C.
  - now apply sub_of_equal.
  - apply ltb_asym, sub_negative; trivial.
    unfold ltb, SFltb. now rewrite C.
  - unfold leb, SFleb in H. rewrite C in H. discriminate.
  - unfold leb, SFleb in H. rewrite C in H. discriminate.
Qed.

Lemma sub_self (x : float64) : is_finite x = true -> (x - x)%f64 = zero.
Proof.
  destruct x as [s|s| |s m e]; cbn [is_finite]; try discriminate; intros _.
  - destruct s; reflexivity.
  - unfold sub, SFsub. rewrite Z.sub_diag. reflexivity.
Qed.

Lemma div_self (s : bool) (m : positive) (e : Z) :
  (S754_finite s m e / S754_finite s m e)%f64 = one.
Proof.
  unfold div, SFdiv, SFdiv_core_binary.
  replace (Zdigits2 (Zpos m) + e - (Zdigits2 (Zpos m) + e)) with 0 by lia.
  rewrite Z.sub_diag.
  change (Z.min (fexp prec emax 0) 0) with (-53).
  change (0 - -53) with 53. cbv beta iota zeta.
  assert (D : Z.div_eucl (Z.shiftl (Zpos m) 53) (Zpos m) = (2 ^ 53, 0)).
  { pose proof (Z.div_eucl_eq (Z.shiftl (Zpos m) 53) (Zpos m) ltac:(lia)) as E.
    pose proof (Z.mod_pos_bound (Z.shiftl (Zpos m) 53) (Zpos m) ltac:(lia)) as B.
    unfold Z.modulo in B.
    assert (Q : Z.shiftl (Zpos m) 53 / Zpos m = 2 ^ 53).
    { rewrite Z.shiftl_mul_pow2 by lia. rewrite Z.mul_comm. apply Z.div_mul. lia. }
    assert (R : Z.shiftl (Zpos m) 53 mod Zpos m = 0).
    { rewrite Z.shiftl_mul_pow2 by lia. rewrite Z.mul_comm. apply Z.mod_mul. lia. }
    unfold Z.div in Q. unfold Z.modulo in R.
    destruct (Z.div_eucl (Z.shiftl (Zpos m) 53) (Zpos m)) as [q r].
    cbn [fst snd] in Q, R. now subst. }
  rewrite D. rewrite xorb_nilpotent.
  unfold new_location, new_location_even, new_location_odd.
  destruct (Z.even (Zpos m)); reflexivity.
Qed.


(** ** The template on a length-preserving density *)

Lemma extract_length {A B : Type} (mask : list bool) :
  forall (a : list A) (b : list B),
    length a = length b -> length (extract mask a) = length (extract mask b).
Proof.
  induction mask as [|m mask IH]; intros [|x a] [|y b] H; cbn in H |- *;
    try reflexivity; try discriminate.
  injection H as H. destruct m; cbn; rewrite (IH a b H); reflexivity.
Qed.

Lemma place_from_enough {A : Type} (arr : list A) :
  forall (mask : list bool) (vals cur : list A),
    (length (extract mask arr) <= length cur)%nat ->
    exists r, place_from arr mask vals cur = ok r.
Proof.
  induction arr as [|x arr IH]; intros mask vals cur H.
  - eexists. reflexivity.
  - destruct mask as [|m mask]; [eexists; reflexivity|].
    cbn [place_from extract] in *. destruct m.
    + destruct cur as [|v cur']; cbn [length] in H; [lia|].
      destruct (IH mask vals cur') as [r Hr]; [lia|].
      rewrite Hr. eexists. reflexivity.
    + destruct (IH mask vals cur H) as [r Hr].
      rewrite Hr. eexists. reflexivity.
Qed.

Lemma template_returns (fill : float64) (op : float64 -> float64 -> float64)
      (s : float64) (h : list float64 -> list float64) (x : list float64)
      (c bad : float64 -> bool) :
  (forall xs, length (h xs) = length xs) ->
  exists out,
    (if existsb (fun b => b) (map c x) then
       (vals <- broadcast_scalar op (h (extract (map c x) x))
                                 (length (extract (map c x) x)) s ;;
        place (putmask (map (fun _ => fill) (map c x)) (map bad x) badvalue)
              (map c x) vals)%result
     else ok (putmask (map (fun _ => fill) (map c x)) (map bad x) badvalue))
    = ok out.
Proof.
  intros Hh. destruct (existsb _ _); [|eexists; reflexivity].
  unfold broadcast_scalar. rewrite Hh, Nat.eqb_refl. cbn [rbind].
  apply place_from_enough. rewrite length_map, Hh.
  apply Nat.eq_le_incl, extract_length.
  now rewrite putmask_length, !length_map.
Qed.

Lemma pdf_returns g loc scale v :
  (forall xs, length (_pdf g xs) = length xs) ->
  exists r, pdf g loc scale v = ok r.
Proof.
  intros Hh. unfold pdf. destruct (asarray v) as [sh xs].
  set (x := map (standardise loc scale) xs).
  rewrite (map_map _ (andb (_argcheck && (zero <? scale)%f64)) x).
  destruct (template_returns zero div scale (_pdf g) x
              (fun y => (_argcheck && (zero <? scale)%f64)
                        && (_support_mask g y && (zero <? scale)%f64))
              (fun y => negb (_argcheck && (zero <? scale)%f64) || isnan y) Hh)
    as [out Ho].
  rewrite Ho. eexists. reflexivity.
Qed.

Lemma logpdf_returns log g loc scale v :
  (forall xs, length (_logpdf log g xs) = length xs) ->
  exists r, logpdf log g loc scale v = ok r.
Proof.
  intros Hh. unfold logpdf. destruct (asarray v) as [sh xs].
  set (x := map (standardise loc scale) xs).
  rewrite (map_map _ (andb (_argcheck && (zero <? scale)%f64)) x).
  destruct (template_returns ninf sub (log scale) (_logpdf log g) x
              (fun y => (_argcheck && (zero <? scale)%f64)
                        && (_support_mask g y && (zero <? scale)%f64))
              (fun y => negb (_argcheck && (zero <? scale)%f64) || isnan y) Hh)
    as [out Ho].
  rewrite Ho. eexists. reflexivity.
Qed.

Lemma cast_raises (value : pyobject) (e : exn) :
  Prior.cast value = raise e -> cast_exception value e.
Proof.
  assert (F : forall n, float_of_int n = raise e -> e = OverflowError)
    by (intros n; apply float_of_int_raises).
  assert (AF : forall arr, array_float arr = raise e ->
                           e = TypeError \/ e = OverflowError).
  { intros arr. unfold array_float.
    destruct (buffer arr) as [l|l|l|l|l]; destruct l as [|x [|y l]];
      try (intros H; injection H as <-; now left);
      try discriminate;
      intros H; right; eapply F, H. }
  destruct value as [b|n|x|re im|l|l|arr|arr|re im|str parsed|conv];
    cbn [Prior.cast np_float cast_exception];
    try discriminate;
    try (intros H; injection H as <-; reflexivity).
  - destruct (float_of_int n) as [e'|x] eqn:E; cbn; [|discriminate].
    intros H. injection H as <-. eapply F, E.
  - unfold astype_float64. destruct (can_cast_same_kind _ _).
    + destruct (buffer arr); discriminate.
    + intros H. injection H as <-. reflexivity.
  - destruct (array_float arr) as [e'|x] eqn:E; cbn; [|discriminate].
    intros H. injection H as <-. eapply AF, E.
  - destruct parsed; cbn; [discriminate|].
    intros H. injection H as <-. reflexivity.
  - destruct conv as [e'|x]; cbn; [|discriminate].
    intros H. injection H as <-. reflexivity.
Qed.

(** ** Arrays, element by element *)

Lemma rv_pdf_pointwise (r : rv) (f : float64 -> float64) (v : f64value) :
  (forall xs, _pdf (dist_of r) xs = map f xs) ->
  rv_pdf r v
  = ok (unwrap (fst (asarray v))
               (map (pdf_at (dist_of r) (loc_of r) (scale_of r) f)
                    (snd (asarray v)))).
Proof. destruct r; cbn [rv_pdf dist_of loc_of scale_of]; apply pdf_pointwise. Qed.

Lemma rv_logpdf_pointwise (log : float64 -> float64) (r : rv)
      (f : float64 -> float64) (v : f64value) :
  (forall xs, _logpdf log (dist_of r) xs = map f xs) ->
  rv_logpdf log r v
  = ok (unwrap (fst (asarray v))
               (map (logpdf_at log (dist_of r) (loc_of r) (scale_of r) f)
                    (snd (asarray v)))).
Proof.
  destruct r; cbn [rv_logpdf dist_of loc_of scale_of]; apply logpdf_pointwise.
Qed.

(** X1: for a distribution whose _pdf and _logpdf act element by element,
    pdf and logpdf of a float64 array return an array of the same shape
    whose entry at each index is what the same method returns for the
    element at that index passed as a scalar. *)
Theorem Prior_array_is_elementwise (log : float64 -> float64) (rv : Scipy.rv)
        (f fl : float64 -> float64) (sh : list nat) (l : list float64) :
  (forall xs, _pdf (dist_of rv) xs = map f xs) ->
  (forall xs, _logpdf log (dist_of rv) xs = map fl xs) ->
  sh <> [] ->
  let p := Prior.__init__ rv in
  let value := NdArray {| shape := sh; buffer := FloatData l |} in
  exists out lout,
    fst (Prior.pdf value p) = ok (Array sh out)
    /\ fst (Prior.logpdf log value p) = ok (Array sh lout)
    /\ forall i x,
         nth_error l i = Some x ->
         exists y ly,
           nth_error out i = Some y /\ nth_error lout i = Some ly
           /\ fst (Prior.pdf (PyFloat x) p) = ok (Scalar y)
           /\ fst (Prior.logpdf log (PyFloat x) p) = ok (Scalar ly).
Proof.
  intros Hf Hfl Hsh p value.
  exists (map (pdf_at (dist_of rv) (loc_of rv) (scale_of rv) f) l),
         (map (logpdf_at log (dist_of rv) (loc_of rv) (scale_of rv) fl) l).
  unfold value. rewrite !pdf_unfold, !(logpdf_unfold log).
  cbn [fst Prior.cast buffer shape Prior._rv p Prior.__init__].
  rewrite astype_float64_float. cbn [rbind ok astype_float64_of_float].
  rewrite (rv_pdf_pointwise rv f _ Hf), (rv_logpdf_pointwise log rv fl _ Hfl).
  cbn [asarray fst snd]. destruct sh as [|n sh]; [now destruct Hsh|].
  cbn [unwrap]. split; [reflexivity|]. split; [reflexivity|].
  intros i x Hi. rewrite !nth_error_map, Hi. cbn [option_map].
  do 2 eexists. split; [reflexivity|]. split; [reflexivity|].
  rewrite !pdf_unfold, !(logpdf_unfold log).
  cbn [fst Prior.cast np_float rbind ok Prior._rv].
  rewrite (rv_pdf_pointwise rv f _ Hf), (rv_logpdf_pointwise log rv fl _ Hfl).
  split; reflexivity.
Qed.

Lemma Prior_array_is_elementwise_witness :
  let p := Prior.__init__ (Frozen uniform zero one) in
  let value := NdArray {| shape := [3%nat];
                          buffer := FloatData [Lit.d0_2; Lit.d0_8; Lit.d1_2] |} in
  exists out lout,
    fst (Prior.pdf value p) = ok (Array [3%nat] out)
    /\ fst (Prior.logpdf log_binade value p) = ok (Array [3%nat] lout)
    /\ forall i x,
         nth_error [Lit.d0_2; Lit.d0_8; Lit.d1_2] i = Some x ->
         exists y ly,
           nth_error out i = Some y /\ nth_error lout i = Some ly
           /\ fst (Prior.pdf (PyFloat x) p) = ok (Scalar y)
           /\ fst (Prior.logpdf log_binade (PyFloat x) p) = ok (Scalar ly).
Proof.
  apply (Prior_array_is_elementwise log_binade (Frozen uniform zero one)
           uniform_pdf_elem (fun y => log_binade (uniform_pdf_elem y))
           [3%nat] [Lit.d0_2; Lit.d0_8; Lit.d1_2]).
  - intros xs. reflexivity.
  - intros xs. unfold _logpdf. cbn [dist_of _logpdf_override uniform _pdf].
    apply map_map.
  - discriminate.
Defined.

(** X8: for a distribution whose _pdf and _logpdf return as many values as
    they are given, pdf and logpdf return whenever the cast succeeds, and
    an exception they raise is the exception of the cast.  Which one that
    is depends on the type of the input: TypeError for an ndarray, a
    Python complex, a list and a tuple; OverflowError for an int;
    ValueError for a str; TypeError or OverflowError for an instance of an
    ndarray subclass; for any other object whatever its conversion by
    float() raises; a bool, a float and a numpy complex scalar raise
    nothing. *)
Theorem Prior_raises_only_cast_errors (log : float64 -> float64) (p : Prior.t)
        (value : pyobject) :
  (forall xs, length (_pdf (dist_of (Prior._rv p)) xs) = length xs) ->
  (forall xs, length (_logpdf log (dist_of (Prior._rv p)) xs) = length xs) ->
  (forall v, Prior.cast value = ok v ->
             (exists r, fst (Prior.pdf value p) = ok r)
             /\ (exists r, fst (Prior.logpdf log value p) = ok r))
  /\ (forall e, fst (Prior.pdf value p) = raise e
                \/ fst (Prior.logpdf log value p) = raise e ->
                Prior.cast value = raise e /\ cast_exception value e).
Proof.
  intros Hp Hl. rewrite pdf_unfold, (logpdf_unfold log). cbn [fst].
  assert (P : forall v, exists r, rv_pdf (Prior._rv p) v = ok r).
  { intros v. destruct (Prior._rv p); cbn [dist_of] in Hp;
      now apply pdf_returns. }
  assert (L : forall v, exists r, rv_logpdf log (Prior._rv p) v = ok r).
  { intros v. destruct (Prior._rv p); cbn [dist_of] in Hl;
      now apply logpdf_returns. }
  split.
  - intros v ->. cbn [rbind]. split; [apply P|apply L].
  - intros e H. destruct (Prior.cast value) as [e'|v] eqn:C; cbn [rbind] in H.
    + assert (e' = e) as -> by (destruct H as [H|H]; now injection H).
      split; [reflexivity|]. eapply cast_raises, C.
    + exfalso. destruct (P v) as [r Hr], (L v) as [r' Hr'].
      rewrite Hr, Hr' in H. destruct H; discriminate.
Qed.

Lemma Prior_raises_only_cast_errors_witness :
  let p := Prior.__init__ (Generator (UniformUnnormedRV_generator
                                        "unnormed_uniform" zero inf)) in
  ((exists r, fst (Prior.pdf (PyInt 3) p) = ok r)
   /\ (exists r, fst (Prior.logpdf log_binade (PyInt 3) p) = ok r))
  /\ (forall e, fst (Prior.pdf (PyStr "abc" None) p) = raise e
                \/ fst (Prior.logpdf log_binade (PyStr "abc" None) p) = raise e ->
                e = ValueError).
Proof.
  intros p. split.
  - refine (proj1 (Prior_raises_only_cast_errors log_binade p (PyInt 3) _ _)
                  (Scalar (of_Z 3)) eq_refl).
    + intros xs. cbn. apply length_map.
    + intros xs. cbn. apply length_map.
  - intros e H.
    refine (proj2 (proj2 (Prior_raises_only_cast_errors log_binade p
                            (PyStr "abc" None) _ _) e H)).
    + intros xs. cbn. apply length_map.
    + intros xs. cbn. apply length_map.
Defined.

(** ** NaN and the values of the densities *)

Lemma leb_nan_r (x : float64) : (x <=? nan)%f64 = false.
Proof. destruct x; reflexivity. Qed.

Lemma sub_nan_l (y : float64) : (nan - y)%f64 = nan.
Proof. destruct y; reflexivity. Qed.

Lemma div_nan_l (y : float64) : (nan / y)%f64 = nan.
Proof. destruct y; reflexivity. Qed.

Lemma unnormed_values (lower upper x : float64) :
  isnan (unnormed_pdf_at lower upper x) = isnan x
  /\ (isnan x = false ->
      unnormed_pdf_at lower upper x = one \/ unnormed_pdf_at lower upper x = zero).
Proof.
  unfold unnormed_pdf_at.
  destruct ((lower <=? x)%f64 && (x <=? upper)%f64) eqn:S.
  - apply andb_prop in S. destruct S as [S _].
    rewrite (leb_not_nan_r _ _ S). split; [reflexivity|now left].
  - destruct (isnan x); split; try reflexivity; try discriminate. now right.
Qed.

(** X2: for a Prior backed by either factory, with any bounds, pdf(NaN)
    and logpdf(NaN) are NaN; nothing is raised. *)
Theorem nan_in_nan_out (log : float64 -> float64) (lower upper : float64)
        (rv : Scipy.rv) :
  UniformUnnormedRV lower upper = ok rv \/ UniformBoundedRV lower upper = ok rv ->
  let p := Prior.__init__ rv in
  fst (Prior.pdf (PyFloat nan) p) = ok (Scalar nan)
  /\ fst (Prior.logpdf log (PyFloat nan) p) = ok (Scalar nan).
Proof.
  intros H p. unfold p. rewrite pdf_unfold, (logpdf_unfold log).
  cbn [fst Prior.cast np_float rbind ok Prior._rv Prior.__init__].
  destruct H as [H|H]; injection H as <-.
  - rewrite unnormed_pdf_pointwise, (unnormed_logpdf_pointwise log)
      by (cbn; auto).
    cbn [asarray fst snd unwrap map hd].
    unfold unnormed_pdf_at, unnormed_logpdf_at.
    rewrite leb_nan_r. split; reflexivity.
  - rewrite uniform_pdf_pointwise, (uniform_logpdf_pointwise log).
    cbn [asarray fst snd unwrap map hd].
    unfold pdf_at, logpdf_at, selected, unusable, standardise, _support_mask.
    rewrite sub_nan_l, div_nan_l, leb_nan_r.
    cbn [andb isnan]. rewrite !andb_false_r, !orb_true_r.
    split; reflexivity.
Qed.

Lemma nan_in_nan_out_witness :
  fst (Prior.pdf (PyFloat nan) (Prior.__init__ (Frozen uniform zero one)))
  = ok (Scalar nan)
  /\ fst (Prior.logpdf log_binade (PyFloat nan)
            (Prior.__init__ (Frozen uniform zero one)))
     = ok (Scalar nan).
Proof.
  exact (nan_in_nan_out log_binade zero one (Frozen uniform zero one)
           (or_intror eq_refl)).
Defined.

(** X3: whatever the bounds, the pdf of UniformUnnormedRV(lower, upper)
    is NaN exactly at NaN, and at every number it is 1.0 or 0.0. *)
Theorem UniformUnnormedRV_pdf_values (lower upper x : float64) :
  valid x = true ->
  exists d,
    pdf_of (UniformUnnormedRV lower upper) (Scalar x) = ok (Scalar d)
    /\ isnan d = isnan x
    /\ (isnan x = false -> d = one \/ d = zero).
Proof.
  intros Hx. exists (unnormed_pdf_at lower upper x).
  unfold pdf_of, UniformUnnormedRV. cbn [rbind ok].
  rewrite unnormed_pdf_pointwise by (cbn; auto).
  split; [reflexivity|]. apply unnormed_values.
Qed.

Lemma UniformUnnormedRV_pdf_values_witness :
  exists d,
    pdf_of (UniformUnnormedRV zero inf) (Scalar Lit.five) = ok (Scalar d)
    /\ isnan d = false
    /\ (false = false -> d = one \/ d = zero).
Proof.
  exact (UniformUnnormedRV_pdf_values zero inf Lit.five eq_refl).
Defined.

(** X4: with reversed or equal bounds, upper <= lower, every entry of the
    pdf and of the logpdf of UniformBoundedRV(lower, upper) is NaN,
    whatever the argument; nothing is raised. *)
Theorem UniformBoundedRV_reversed_bounds_nan (log : float64 -> float64)
        (lower upper : float64) (v : f64value) :
  valid lower = true -> valid upper = true ->
  (upper <=? lower)%f64 = true ->
  pdf_of (UniformBoundedRV lower upper) v
  = ok (unwrap (fst (asarray v)) (map (fun _ => nan) (snd (asarray v))))
  /\ logpdf_of log (UniformBoundedRV lower upper) v
     = ok (unwrap (fst (asarray v)) (map (fun _ => nan) (snd (asarray v)))).
Proof.
  intros Vl Vu H.
  pose proof (sub_not_positive upper lower Vu Vl H) as Hs.
  unfold pdf_of, logpdf_of, UniformBoundedRV, uniform_call. cbn [rbind ok].
  rewrite uniform_pdf_pointwise, (uniform_logpdf_pointwise log).
  split; do 2 f_equal; apply map_ext; intros x;
    unfold pdf_at, logpdf_at, selected, unusable, cond0, _argcheck;
    rewrite Hs; reflexivity.
Qed.

Lemma UniformBoundedRV_reversed_bounds_nan_witness :
  pdf_of (UniformBoundedRV one zero) (Scalar Lit.half) = ok (Scalar nan)
  /\ logpdf_of log_binade (UniformBoundedRV one one)
       (Array [2%nat] [Lit.half; one])
     = ok (Array [2%nat] [nan; nan]).
Proof.
  split.
  - exact (proj1 (UniformBoundedRV_reversed_bounds_nan log_binade one zero
                    (Scalar Lit.half) eq_refl eq_refl eq_refl)).
  - exact (proj2 (UniformBoundedRV_reversed_bounds_nan log_binade one one
                    (Array [2%nat] [Lit.half; one]) eq_refl eq_refl eq_refl)).
Defined.

(** ** Reversed bounds and end points *)

Lemma reversed_support_empty (lower upper x : float64) :
  (upper <? lower)%f64 = true ->
  (lower <=? x)%f64 && (x <=? upper)%f64 = false.
Proof.
  intros H. destruct (lower <=? x)%f64 eqn:A; [|reflexivity].
  destruct (x <=? upper)%f64 eqn:B; [|reflexivity].
  pose proof (leb_trans _ _ _ A B) as C.
  rewrite (ltb_leb_false _ _ H) in C. discriminate.
Qed.

(** X5: with reversed bounds, upper < lower, the support of
    UniformUnnormedRV(lower, upper) is empty: at every number pdf is 0.0
    and logpdf is -inf. *)
Theorem UniformUnnormedRV_reversed_bounds_zero (log : float64 -> float64)
        (lower upper x : float64) :
  (upper <? lower)%f64 = true ->
  valid x = true -> isnan x = false ->
  pdf_of (UniformUnnormedRV lower upper) (Scalar x) = ok (Scalar zero)
  /\ logpdf_of log (UniformUnnormedRV lower upper) (Scalar x) = ok (Scalar ninf).
Proof.
  intros H Hx Hn. unfold pdf_of, logpdf_of, UniformUnnormedRV. cbn [rbind ok].
  rewrite unnormed_pdf_pointwise, (unnormed_logpdf_pointwise log)
    by (cbn; auto).
  cbn [asarray fst snd unwrap map hd].
  unfold unnormed_pdf_at, unnormed_logpdf_at.
  rewrite (reversed_support_empty lower upper x H), Hn. split; reflexivity.
Qed.

Lemma UniformUnnormedRV_reversed_bounds_zero_witness :
  pdf_of (UniformUnnormedRV one zero) (Scalar Lit.half) = ok (Scalar zero)
  /\ logpdf_of log_binade (UniformUnnormedRV one zero) (Scalar Lit.half)
     = ok (Scalar ninf).
Proof.
  exact (UniformUnnormedRV_reversed_bounds_zero log_binade one zero Lit.half
           eq_refl eq_refl eq_refl).
Defined.

Lemma positive_shape (s : float64) :
  (zero <? s)%f64 = true ->
  s = inf \/ exists m e, s = S754_finite false m e.
Proof.
  destruct s as [[|]|[|]| |[|] m e]; cbn; try discriminate; eauto.
Qed.

(** X6: the end points belong to the support of
    UniformBoundedRV(lower, upper): pdf(lower) is 1/(upper-lower) when
    lower is finite, and pdf(upper) is 1/(upper-lower) when upper - lower
    is finite; when upper - lower overflows to +inf, pdf(upper) is NaN. *)
Theorem UniformBoundedRV_endpoints (lower upper : float64) :
  valid lower = true -> valid upper = true ->
  (lower <? upper)%f64 = true ->
  (is_finite lower = true ->
   pdf_of (UniformBoundedRV lower upper) (Scalar lower)
   = ok (Scalar (one / (upper - lower))%f64))
  /\ (is_finite (upper - lower)%f64 = true ->
      pdf_of (UniformBoundedRV lower upper) (Scalar upper)
      = ok (Scalar (one / (upper - lower))%f64))
  /\ ((upper - lower)%f64 = inf ->
      pdf_of (UniformBoundedRV lower upper) (Scalar upper) = ok (Scalar nan)).
Proof.
  intros Vl Vu Hlt.
  pose proof (sub_positive lower upper Vl Vu Hlt) as Hs.
  unfold pdf_of, UniformBoundedRV, uniform_call. cbn [rbind ok].
  rewrite !uniform_pdf_pointwise. cbn [asarray fst snd unwrap map hd].
  unfold pdf_at, selected, unusable, cond0, standardise, _support_mask, _argcheck.
  cbn [a b uniform]. rewrite Hs. cbn [andb negb orb].
  destruct (positive_shape _ Hs) as [Hi|(m & e & Hf)].
  - rewrite Hi. split; [|split].
    + intros Fl. rewrite (sub_self lower Fl). reflexivity.
    + discriminate.
    + intros _. reflexivity.
  - rewrite Hf. split; [|split].
    + intros Fl. rewrite (sub_self lower Fl). reflexivity.
    + intros _. rewrite div_self. reflexivity.
    + discriminate.
Qed.

Lemma UniformBoundedRV_endpoints_witness :
  (pdf_of (UniformBoundedRV Lit.minus_one one) (Scalar Lit.minus_one)
   = ok (Scalar Lit.half)
   /\ pdf_of (UniformBoundedRV Lit.minus_one one) (Scalar one)
      = ok (Scalar Lit.half))
  /\ pdf_of (UniformBoundedRV (SFopp max_float) max_float) (Scalar max_float)
     = ok (Scalar nan).
Proof.
  split; [split|].
  - exact (proj1 (UniformBoundedRV_endpoints Lit.minus_one one
                    eq_refl eq_refl eq_refl) eq_refl).
  - exact (proj1 (proj2 (UniformBoundedRV_endpoints Lit.minus_one one
                           eq_refl eq_refl eq_refl)) eq_refl).
  - exact (proj2 (proj2 (UniformBoundedRV_endpoints (SFopp max_float) max_float
                           eq_refl eq_refl eq_refl)) eq_refl).
Defined.

(** X7: UniformBoundedRV(lower, +inf) with a finite lower bound is the zero
    density: pdf(x) is 0.0 at every x for which x - lower is finite, below
    lower as well as above, and logpdf(x) is -inf. *)
Theorem UniformBoundedRV_unbounded_is_zero (log : float64 -> float64)
        (lower x : float64) :
  is_finite lower = true ->
  is_finite (x - lower)%f64 = true ->
  pdf_of (UniformBoundedRV lower inf) (Scalar x) = ok (Scalar zero)
  /\ (log one = zero -> log inf = inf ->
      logpdf_of log (UniformBoundedRV lower inf) (Scalar x) = ok (Scalar ninf)).
Proof.
  intros Fl Fx.
  assert (Hs : (inf - lower)%f64 = inf)
    by (destruct lower as [s|s| |s m e]; try discriminate; reflexivity).
  unfold pdf_of, logpdf_of, UniformBoundedRV, uniform_call. cbn [rbind ok].
  rewrite uniform_pdf_pointwise, (uniform_logpdf_pointwise log).
  cbn [asarray fst snd unwrap map hd].
  unfold pdf_at, logpdf_at, selected, unusable, cond0, standardise,
    _support_mask, _argcheck.
  cbn [a b uniform]. rewrite Hs.
  assert (Hy : exists s, ((x - lower) / inf)%f64 = S754_zero s).
  { destruct (x - lower)%f64 as [s|s| |s m e]; try discriminate;
      eexists; reflexivity. }
  destruct Hy as [s ->]. split.
  - destruct s; reflexivity.
  - intros H1 Hi.
    assert (E : uniform_pdf_elem (S754_zero s) = one)
      by (destruct s; reflexivity).
    rewrite E, H1, Hi. destruct s; reflexivity.
Qed.

Lemma UniformBoundedRV_unbounded_is_zero_witness :
  pdf_of (UniformBoundedRV zero inf) (Scalar Lit.five) = ok (Scalar zero)
  /\ pdf_of (UniformBoundedRV zero inf) (Scalar Lit.minus_one) = ok (Scalar zero)
  /\ logpdf_of log_binade (UniformBoundedRV zero inf) (Scalar Lit.five)
     = ok (Scalar ninf).
Proof.
  split; [|split].
  - exact (proj1 (UniformBoundedRV_unbounded_is_zero log_binade zero Lit.five
                    eq_refl eq_refl)).
  - exact (proj1 (UniformBoundedRV_unbounded_is_zero log_binade zero
                    Lit.minus_one eq_refl eq_refl)).
  - exact (proj2 (UniformBoundedRV_unbounded_is_zero log_binade zero Lit.five
                    eq_refl eq_refl) eq_refl eq_refl).
Defined.

(** X9: widening the bounds of UniformUnnormedRV keeps the support: where
    the pdf is 1.0 for bounds [l1, u1] it is 1.0 for any bounds [l2, u2]
    with l2 <= l1 and u1 <= u2. *)
Theorem UniformUnnormedRV_widening (l1 u1 l2 u2 x : float64) :
  valid x = true ->
  (l2 <=? l1)%f64 = true -> (u1 <=? u2)%f64 = true ->
  pdf_of (UniformUnnormedRV l1 u1) (Scalar x) = ok (Scalar one) ->
  pdf_of (UniformUnnormedRV l2 u2) (Scalar x) = ok (Scalar one).
Proof.
  intros Hx Hl Hu. unfold pdf_of, UniformUnnormedRV. cbn [rbind ok].
  rewrite !unnormed_pdf_pointwise by (cbn; auto).
  cbn [asarray fst snd unwrap map hd]. unfold unnormed_pdf_at.
  destruct ((l1 <=? x)%f64 && (x <=? u1)%f64) eqn:S.
  - intros _. apply andb_prop in S. destruct S as [A B].
    now rewrite (leb_trans _ _ _ Hl A), (leb_trans _ _ _ B Hu).
  - destruct (isnan x); discriminate.
Qed.

Lemma UniformUnnormedRV_widening_witness :
  pdf_of (UniformUnnormedRV ninf inf) (Scalar Lit.five) = ok (Scalar one).
Proof.
  exact (UniformUnnormedRV_widening zero inf ninf inf Lit.five
           eq_refl eq_refl eq_refl eq_refl).
Defined.

Lemma whole_line (x : float64) :
  isnan x = false -> (ninf <=? x)%f64 = true /\ (x <=? inf)%f64 = true.
Proof.
  destruct x as [s|s| |s m e]; cbn [isnan]; try discriminate; intros _;
    destruct s; split; reflexivity.
Qed.

(** X10: UniformUnnormedRV() with its default bounds is flat on the whole
    extended line: pdf is 1.0 and logpdf is 0.0 at every number, the two
    infinities included. *)
Theorem UniformUnnormedRV_default_is_flat (log : float64 -> float64)
        (x : float64) :
  valid x = true -> isnan x = false ->
  pdf_of (UniformUnnormedRV_kw None None) (Scalar x) = ok (Scalar one)
  /\ (log one = zero ->
      logpdf_of log (UniformUnnormedRV_kw None None) (Scalar x)
      = ok (Scalar zero)).
Proof.
  intros Hx Hn. destruct (whole_line x Hn) as [A B].
  unfold pdf_of, logpdf_of, UniformUnnormedRV_kw, UniformUnnormedRV.
  cbn [default rbind ok].
  rewrite unnormed_pdf_pointwise, (unnormed_logpdf_pointwise log)
    by (cbn; auto).
  cbn [asarray fst snd unwrap map hd].
  unfold unnormed_pdf_at, unnormed_logpdf_at. rewrite A, B.
  split; [reflexivity|]. intros ->. reflexivity.
Qed.

Lemma UniformUnnormedRV_default_is_flat_witness :
  pdf_of (UniformUnnormedRV_kw None None) (Scalar ninf) = ok (Scalar one)
  /\ logpdf_of log_binade (UniformUnnormedRV_kw None None) (Scalar Lit.minus_one)
     = ok (Scalar zero).
Proof.
  split.
  - exact (proj1 (UniformUnnormedRV_default_is_flat log_binade ninf
                    eq_refl eq_refl)).
  - exact (proj2 (UniformUnnormedRV_default_is_flat log_binade Lit.minus_one
                    eq_refl eq_refl) eq_refl).
Defined.

(** X11: whatever the bounds and the argument, the pdf of
    UniformBoundedRV(lower, upper) returns, and what it returns is
    1/(upper-lower), 0.0 or NaN. *)
Theorem UniformBoundedRV_pdf_values (lower upper x : float64) :
  exists d,
    pdf_of (UniformBoundedRV lower upper) (Scalar x) = ok (Scalar d)
    /\ (d = (one / (upper - lower))%f64 \/ d = zero \/ d = nan).
Proof.
  unfold pdf_of, UniformBoundedRV, uniform_call. cbn [rbind ok].
  rewrite uniform_pdf_pointwise. cbn [asarray fst snd unwrap map hd].
  eexists. split; [reflexivity|].
  unfold pdf_at. set (y := standardise lower (upper - lower)%f64 x).
  destruct (selected uniform (upper - lower)%f64 y) eqn:S.
  - left. unfold selected, _support_mask in S.
    apply andb_prop in S. destruct S as [_ S].
    apply andb_prop in S. destruct S as [S _].
    apply andb_prop in S. destruct S as [S _].
    now rewrite (uniform_pdf_elem_number y (leb_not_nan_r _ _ S)).
  - destruct (unusable (upper - lower)%f64 y); auto.
Qed.
